(** * HeliumSCHA: the helium potential adapter [potential/helium_ensemble.py]

    A shallow embedding of the module: its import-time loading of the Julia
    bridge, and the two methods of [HeliumEnsemble] that hand the ensemble to
    the Julia kernel and store the kernel's answer in the ensemble's numpy
    arrays. *)

From stdpp Require Import gmap strings list fin_maps.

(** * Python exceptions *)

(** The exception classes the module can meet.  [KeyboardInterrupt] and
    [SystemExit] derive from [BaseException] only, so an
    [except Exception] clause lets them through; all the others derive from
    [Exception]. *)
Inductive exn : Type :=
  | NameError (name : string)
  | AttributeError (attr : string)
  | TypeError
  | ValueError
  | IndexError
  | ImportError (module : string)
  | IndentationError (line : nat)
  | JuliaError (code : nat)
  | SystemError
  | KeyboardInterrupt
  | SystemExit.

Definition is_Exception (e : exn) : bool :=
  match e with
  | KeyboardInterrupt | SystemExit => false
  | _ => true
  end.

#[global] Instance exn_eq_dec : EqDecision exn.
Proof. solve_decision. Defined.

(** The result of running a piece of Python: a value, or a raised exception. *)
Inductive outcome (A : Type) : Type :=
  | Val (a : A)
  | Exc (e : exn).
Arguments Val {A} a.
Arguments Exc {A} e.

(** * numpy arrays *)

Module Numpy.

(** An n-dimensional array: its shape and its elements in row-major (C)
    order. *)
Record ndarray (A : Type) : Type := NdArray { shape : list nat; data : list A }.
Arguments NdArray {A} shape data.
Arguments shape {A} _.
Arguments data {A} _.

(** Number of elements of an array of shape [sh]. *)
Definition size (sh : list nat) : nat := foldr Nat.mul 1 sh.

(** Every array numpy builds carries as many elements as its shape says. *)
Definition consistent {A} (a : ndarray A) : Prop := length (data a) = size (shape a).

(** Multi-index of the flat position [j] in an array of shape [sh]. *)
Fixpoint unravel (sh : list nat) (j : nat) : list nat :=
  match sh with
  | [] => []
  | _ :: rest => j / size rest :: unravel rest (j mod size rest)
  end.

(** Flat position of a multi-index. *)
Fixpoint ravel (sh idx : list nat) : nat :=
  match sh, idx with
  | _ :: rest, i :: idx' => i * size rest + ravel rest idx'
  | _, _ => 0
  end.

(** Assignment [dst[...] = src] first brings the shape of [src] to the rank
    of [dst]: missing leading axes are added with length 1, and surplus
    leading axes are dropped when they all have length 1. *)
Definition align (rank : nat) (ss : list nat) : option (list nat) :=
  if decide (length ss ≤ rank) then Some (replicate (rank - length ss) 1 ++ ss)
  else
    let extra := length ss - rank in
    if forallb (Nat.eqb 1) (take extra ss) then Some (drop extra ss) else None.

(** Axis by axis, the source length equals the target's or is 1. *)
Fixpoint compatible (ds ss : list nat) : bool :=
  match ds, ss with
  | [], [] => true
  | d :: ds', s :: ss' => ((s =? d) || (s =? 1)) && compatible ds' ss'
  | _, _ => false
  end.

(** An axis of length 1 in the source is read at index 0 whatever the
    target index. *)
Definition clamp (ss idx : list nat) : list nat :=
  zip_with (fun s i => if s =? 1 then 0 else i) ss idx.

Definition source_index (ds ss : list nat) (j : nat) : nat :=
  ravel ss (clamp ss (unravel ds j)).

(** The elements [src] supplies for a target of shape [ds], or [None] when
    numpy refuses ("could not broadcast input array"). *)
Definition broadcast_to {A} (ds : list nat) (src : ndarray A) : option (list A) :=
  ss ← align (length ds) (shape src);
  if compatible ds ss
  then mapM (fun j => data src !! source_index ds ss j) (seq 0 (size ds))
  else None.

(** The [i]-th block along the first axis ([a[i]]). *)
Definition row {A} (i : nat) (a : ndarray A) : ndarray A :=
  let rest := tail (shape a) in
  NdArray rest (take (size rest) (drop (i * size rest) (data a))).

Definition map_array {A B} (f : A -> B) (a : ndarray A) : ndarray B :=
  NdArray (shape a) (f <$> data a).

End Numpy.

Import Numpy.

(** * Importing the module (lines 1-29) *)

Module Loader.

(** ** Layout of the file

    One entry per logical line of [helium_ensemble.py]: its line number,
    the width of its leading blanks, and whether it ends in a colon and so
    opens a block.  Blank lines, comment lines and the continuation lines
    12 and 19 (inside an open parenthesis) carry no layout. *)
Record logical_line : Type :=
  Line { lineno : nat; indent : nat; opens_block : bool }.

Definition module_lines : list logical_line :=
  [ Line 1 0 false;    (* import cellconstructor as CC, cellconstructor.Phonons *)
    Line 2 0 false;    (* import numpy as np *)
    Line 3 0 false;    (* import sscha, sscha.Ensemble *)
    Line 5 0 true;     (* try: *)
    Line 6 4 false;    (*     import julia *)
    Line 7 7 true;     (*        try: *)
    Line 8 11 false;   (*            from julia.api import Julia *)
    Line 9 11 false;   (*            jl = Julia(compiled_modules=False) *)
    Line 10 11 false;  (*            import julia.Main *)
    Line 11 11 false;  (*            julia.Main.include(...) *)
    Line 13 11 false;  (*            __JULIA_EXT__ = True *)
    Line 14 7 true;    (*        except: *)
    Line 16 11 false;  (*            julia.install() *)
    Line 17 11 true;   (*            try: *)
    Line 18 15 false;  (*                julia.Main.include(...) *)
    Line 20 15 false;  (*                __JULIA_EXT__ = True *)
    Line 21 11 true;   (*            except Exception as e: *)
    Line 22 15 false;  (*                warnings.warn(...) *)
    Line 23 3 true;    (*    except Exception as e: *)
    Line 24 7 false;   (*        warnings.warn(...) *)
    Line 29 0 true;    (* class HeliumEnsemble(sscha.Ensemble.Ensemble): *)
    Line 30 4 true;    (*     def compute_ensemble(self, *args, **kwargs): *)
    Line 32 8 false;   (*         self.has_stress = False *)
    Line 34 8 false;   (*         energies, forces = julia.Main.compute_ensemble_py(self.xats) *)
    Line 37 8 false;   (*         self.force_computed[:] = True *)
    Line 38 8 false;   (*         self.forces[:, :, :] = forces *)
    Line 39 8 false;   (*         self.energies[:] = energies *)
    Line 41 8 false;   (*         self.init() *)
    Line 43 4 true;    (*     def get_energy_forces(self, *argd, **kwargs): *)
    Line 44 8 false ]. (*         self.compute_ensemble() *)

Inductive layout_error : Type :=
  | UnexpectedIndent
  | ExpectedIndentedBlock
  | UnindentMismatch.

(** Python keeps a stack of the open indentation widths.  A narrower line
    pops until it meets its own width, which has to be on the stack. *)
Fixpoint dedent (stack : list nat) (width : nat) : option (list nat) :=
  match stack with
  | [] => None
  | c :: below =>
      if width <? c then dedent below width
      else if c =? width then Some stack
      else None
  end.

(** A wider line pushes its width and must follow a block opener; a block
    opener must be followed by a wider line.  The first offence is reported
    with its line (0 for the end of the file). *)
Fixpoint check_layout (stack : list nat) (after_opener : bool)
    (ls : list logical_line) : option (nat * layout_error) :=
  match ls with
  | [] => if after_opener then Some (0, ExpectedIndentedBlock) else None
  | l :: rest =>
      if default 0 (head stack) <? indent l then
        if after_opener then check_layout (indent l :: stack) (opens_block l) rest
        else Some (lineno l, UnexpectedIndent)
      else if after_opener then Some (lineno l, ExpectedIndentedBlock)
      else
        match dedent stack (indent l) with
        | Some stack' => check_layout stack' (opens_block l) rest
        | None => Some (lineno l, UnindentMismatch)
        end
  end.

(** ** Running the top-level statements *)

(** What the surroundings answer when the module reaches out of itself:
    for each import and each call into pyjulia, [None] when it succeeds and
    the exception it raises otherwise. *)
Record world : Type := World {
  importing : string -> option exn;   (* by dotted module name *)
  start_julia : option exn;           (* Julia(compiled_modules=False) *)
  install : option exn;               (* julia.install() *)
  include_file : nat -> option exn    (* Main.include("compute_potential.jl"), by attempt *)
}.

Record load_state : Type := LoadState {
  names : list string;       (* names bound in the module namespace *)
  main_imported : bool;      (* julia.Main is an attribute of the package julia *)
  included : nat;            (* how often compute_potential.jl was included *)
  warned : list exn          (* the warnings emitted, by the error they report *)
}.

Definition L (A : Type) : Type := load_state -> outcome A * load_state.

Definition ret {A} (a : A) : L A := fun st => (Val a, st).
Definition raise {A} (e : exn) : L A := fun st => (Exc e, st).
Definition bind {A B} (m : L A) (k : A -> L B) : L B :=
  fun st => match m st with
            | (Val a, st') => k a st'
            | (Exc e, st') => (Exc e, st')
            end.

(** [try: body except <catches>: handler] *)
Definition try_except (body : L unit) (catches : exn -> bool) (handler : exn -> L unit) : L unit :=
  fun st => match body st with
            | (Val a, st') => (Val a, st')
            | (Exc e, st') => if catches e then handler e st' else (Exc e, st')
            end.

Definition of_option (o : option exn) : L unit :=
  match o with None => ret tt | Some e => raise e end.

(** The builtins the file mentions.  [os] and [warnings] are modules of the
    standard library, not builtins: they exist in a namespace only once
    imported there. *)
Definition builtins : list string := ["Exception"; "True"; "False"].

Definition bound (x : string) (ns : list string) : bool := existsb (String.eqb x) ns.

Definition load_name (x : string) : L unit :=
  fun st => if bound x (names st) || bound x builtins then (Val tt, st)
            else (Exc (NameError x), st).

Definition store_name (x : string) : L unit :=
  fun st => (Val tt, LoadState (x :: names st) (main_imported st) (included st) (warned st)).

Definition set_main_imported : L unit :=
  fun st => (Val tt, LoadState (names st) true (included st) (warned st)).

#[export] Instance L_ret : MRet L := @ret.
#[export] Instance L_bind : MBind L := fun A B k m => bind m k.

(** [import module] or [import module as name], binding [binds]. *)
Definition import_ (w : world) (module binds : string) : L unit :=
  of_option (importing w module);; store_name binds.

(** Line 8: [from julia.api import Julia] *)
Definition from_julia_api_import_Julia (w : world) : L unit :=
  of_option (importing w "julia.api");; store_name "Julia".

(** Line 9: [jl = Julia(compiled_modules=False)] *)
Definition assign_jl (w : world) : L unit :=
  load_name "Julia";; of_option (start_julia w);; store_name "jl".

(** Line 10: [import julia.Main] loads the submodule, makes it an
    attribute of the package and binds the package name. *)
Definition import_julia_Main (w : world) : L unit :=
  of_option (importing w "julia.Main");; set_main_imported;; store_name "julia".

(** The attribute [julia.Main] exists once the submodule was imported. *)
Definition attr_Main : L unit :=
  fun st => if main_imported st then (Val tt, st) else (Exc (AttributeError "Main"), st).

Definition call_include (w : world) : L unit :=
  fun st => match include_file w (included st) with
            | None => (Val tt, LoadState (names st) (main_imported st) (S (included st)) (warned st))
            | Some e => (Exc e, st)
            end.

(** Lines 11-12 and 18-19:
    [julia.Main.include(os.path.join(os.path.dirname(__file__), "compute_potential.jl"))].
    Python evaluates the callee, then the arguments from left to right,
    then calls: the names are looked up in the order [julia], [os], [os],
    [__file__]. *)
Definition include_potential (w : world) : L unit :=
  load_name "julia";; attr_Main;;
  load_name "os";; load_name "os";; load_name "__file__";;
  call_include w.

(** Lines 13 and 20: [__JULIA_EXT__ = True] *)
Definition set_JULIA_EXT : L unit := store_name "__JULIA_EXT__".

(** Line 16: [julia.install()] *)
Definition julia_install (w : world) : L unit :=
  load_name "julia";; of_option (install w).

Definition emit_warning (e : exn) : L unit :=
  fun st => (Val tt, LoadState (names st) (main_imported st) (included st) (warned st ++ [e])).

(** Lines 22 and 24: [warnings.warn(<message>.format(e))]; the callee
    [warnings.warn] is evaluated before the message. *)
Definition warn (e : exn) : L unit :=
  load_name "warnings";; emit_warning e.

Definition catch_all (e : exn) : bool := true.

(** Lines 5-24, with the blocks nested the way their relative indentation
    reads: the inner [try] (line 7) inside the outer one (line 5) after
    [import julia], the bare [except:] (line 14) belonging to the inner
    [try], and the last [except Exception] (line 23) to the outer one. *)
Definition load_bridge (w : world) : L unit :=
  try_except
    (import_ w "julia" "julia";;
     try_except
       (from_julia_api_import_Julia w;;
        assign_jl w;;
        import_julia_Main w;;
        include_potential w;;
        set_JULIA_EXT)
       catch_all
       (fun _ =>
          julia_install w;;
          try_except
            (include_potential w;; set_JULIA_EXT)
            is_Exception
            warn))
    is_Exception
    warn.

(** Line 29: the class statement evaluates its base,
    [sscha.Ensemble.Ensemble], and binds the class name; the method bodies
    do not run. *)
Definition class_HeliumEnsemble : L unit :=
  load_name "sscha";; store_name "HeliumEnsemble".

(** The statements of the file in order, under that reading of the
    blocks. *)
Definition toplevel (w : world) : L unit :=
  import_ w "cellconstructor" "CC";;
  import_ w "cellconstructor.Phonons" "cellconstructor";;
  import_ w "numpy" "np";;
  import_ w "sscha" "sscha";;
  import_ w "sscha.Ensemble" "sscha";;
  load_bridge w;;
  class_HeliumEnsemble.

(** The namespace a module starts with. *)
Definition fresh_module : load_state :=
  LoadState ["__name__"; "__doc__"; "__package__"; "__loader__"; "__spec__";
             "__file__"; "__cached__"; "__builtins__"] false 0 [].

(** The namespace when line 5 is reached: lines 1-3 have bound their
    names. *)
Definition after_imports : load_state :=
  LoadState ("sscha" :: "sscha" :: "np" :: "cellconstructor" :: "CC" :: names fresh_module)
            false 0 [].

(** Importing the file as it is: Python lays the file out before it runs
    any statement of it. *)
Definition import_module (w : world) : outcome unit * load_state :=
  match check_layout [0] false module_lines with
  | Some (n, _) => (Exc (IndentationError n), fresh_module)
  | None => toplevel w fresh_module
  end.

(** Worlds used in the examples below. *)
Definition all_fine : world := World (fun _ => None) None None (fun _ => None).

Definition julia_missing : world :=
  World (fun m => if String.eqb m "julia" then Some (ImportError "julia") else None)
        None None (fun _ => None).

Definition install_interrupted : world :=
  World (fun _ => None) None (Some KeyboardInterrupt) (fun _ => None).

End Loader.

(** * The ensemble object, the kernel and the host class *)

(** numpy's casts between its [bool] and [float64] element types, which an
    assignment into an array applies to the value assigned
    ([True] becomes [1.0]; a float becomes [x != 0]). *)
Class Casts (scalar : Type) : Type := {
  of_bool : bool -> scalar;
  to_bool : scalar -> bool
}.

Abbreviation loc := nat (only parsing).

Section Adapter.

Context {scalar : Type} `{!Casts scalar}.

(** A numpy array object: [force_computed] is an array of booleans,
    [xats], [forces] and [energies] are arrays of floats. *)
Inductive obj : Type :=
  | OBool (a : ndarray bool)
  | OFloat (a : ndarray scalar).

Definition obj_shape (o : obj) : list nat :=
  match o with OBool a => shape a | OFloat a => shape a end.

(** What an attribute of the ensemble holds: an immediate value or a
    reference to an array object.  Two attributes holding the same
    reference share the array. *)
Inductive value : Type :=
  | VNone
  | VBool (b : bool)
  | VFloat (x : scalar)
  | VRef (l : loc).

(** The ensemble instance ([self]): its attribute dictionary and the array
    objects the attributes refer to. *)
Record pystate : Type := PyState {
  attrs : gmap string value;
  heap : gmap loc obj
}.

(** The argument as the kernel receives it. *)
Inductive arg : Type :=
  | ANone
  | ABool (b : bool)
  | AFloat (x : scalar)
  | AArr (o : obj).

(** What the bridge hands back: the components it converts a Julia result
    to are numbers and numpy arrays; a Julia tuple arrives as a Python
    tuple of them, [nothing] as [None]. *)
Inductive item : Type :=
  | RBool (b : bool)
  | RFloat (x : scalar)
  | RArr (o : obj).

Inductive retval : Type :=
  | RNone
  | RItem (v : item)
  | RTuple (vs : list item).

(** The kernel is Julia code reached through the bridge.  It answers from
    the argument it is given and does not reach into the ensemble. *)
Definition kernel : Type := arg -> outcome retval.

(** The module global [julia] as [compute_ensemble] sees it: the name may
    be unbound, the package may lack its [Main] submodule, and Julia's
    [Main] may or may not define [compute_ensemble_py] (it does once
    [compute_potential.jl] was included). *)
Record julia_Main : Type := JuliaMain { compute_ensemble_py : option kernel }.
Record julia_package : Type := JuliaPackage { Main : option julia_Main }.
Record globals : Type := Globals { julia : option julia_package }.

(** The base class [sscha.Ensemble.Ensemble], which is not part of this
    repository: of it the adapter uses the method [init] only. *)
Record Ensemble : Type := EnsembleClass { init : pystate -> outcome unit * pystate }.

(** The effects of a run, in the order they happen. *)
Inductive event : Type :=
  | SetAttr (name : string) (v : value)
  | CallKernel (x : arg)
  | SetItem (name : string)
  | CallInit.

Record mstate : Type := MState { py : pystate; trace : list event }.

Definition M (A : Type) : Type := mstate -> outcome A * mstate.

Definition mret_ {A} (a : A) : M A := fun s => (Val a, s).
Definition raise {A} (e : exn) : M A := fun s => (Exc e, s).
Definition bind {A B} (m : M A) (k : A -> M B) : M B :=
  fun s => match m s with
           | (Val a, s') => k a s'
           | (Exc e, s') => (Exc e, s')
           end.

#[global] Instance M_ret : MRet M := @mret_.
#[global] Instance M_bind : MBind M := fun A B k m => bind m k.

Definition lift {A} (r : exn + A) : M A :=
  match r with inl e => raise e | inr a => mret_ a end.

(** ** Attribute access *)

(** [self.name = v] *)
Definition setattr (name : string) (v : value) : M unit :=
  fun s => (Val tt, MState (PyState (<[name := v]> (attrs (py s))) (heap (py s)))
                           (trace s ++ [SetAttr name v])).

(** [self.name] *)
Definition getattr (name : string) : M value :=
  fun s => match attrs (py s) !! name with
           | Some v => (Val v, s)
           | None => (Exc (AttributeError name), s)
           end.

(** The object behind a value, as a callee receives it. *)
Definition referent (p : pystate) (v : value) : option arg :=
  match v with
  | VNone => Some ANone
  | VBool b => Some (ABool b)
  | VFloat x => Some (AFloat x)
  | VRef l => AArr <$> heap p !! l
  end.

(** A reference always has its object in a state Python builds;
    [SystemError] stands for the states that are not of that kind. *)
Definition deref (v : value) : M arg :=
  fun s => match referent (py s) v with
           | Some x => (Val x, s)
           | None => (Exc SystemError, s)
           end.

(** ** The kernel call *)

(** [julia.Main.compute_ensemble_py]: the global name, then the two
    attributes. *)
Definition load_kernel (g : globals) : exn + kernel :=
  match julia g with
  | None => inl (NameError "julia")
  | Some pkg =>
      match Main pkg with
      | None => inl (AttributeError "Main")
      | Some m =>
          match compute_ensemble_py m with
          | None => inl (AttributeError "compute_ensemble_py")
          | Some k => inr k
          end
      end
  end.

Definition call_kernel (k : kernel) (x : arg) : M retval :=
  fun s => (k x, MState (py s) (trace s ++ [CallKernel x])).

Definition obj_row (i : nat) (o : obj) : obj :=
  match o with OBool a => OBool (row i a) | OFloat a => OFloat (row i a) end.

(** [energies, forces = <result>]: a tuple must have two components; an
    array is iterated along its first axis, which must have length two; a
    number or [None] is not iterable. *)
Definition unpack2 (r : retval) : exn + item * item :=
  match r with
  | RTuple [a; b] => inr (a, b)
  | RTuple _ => inl ValueError
  | RItem (RArr o) =>
      match obj_shape o with
      | [] => inl TypeError
      | d :: _ => if d =? 2 then inr (RArr (obj_row 0 o), RArr (obj_row 1 o)) else inl ValueError
      end
  | RItem _ => inl TypeError
  | RNone => inl TypeError
  end.

(** ** Assignment into an array *)

Definition as_float (v : item) : ndarray scalar :=
  match v with
  | RBool b => NdArray [] [of_bool b]
  | RFloat x => NdArray [] [x]
  | RArr (OBool a) => map_array of_bool a
  | RArr (OFloat a) => a
  end.

Definition as_bool (v : item) : ndarray bool :=
  match v with
  | RBool b => NdArray [] [b]
  | RFloat x => NdArray [] [to_bool x]
  | RArr (OBool a) => a
  | RArr (OFloat a) => map_array to_bool a
  end.

(** [dst[:, ..., :] = v] with [slices] full slices: the array needs at
    least that many axes ([IndexError] otherwise); the value is cast to the
    array's element type and broadcast to its shape ([ValueError] when it
    cannot be); the array keeps its shape and gets new elements. *)
Definition store (slices : nat) (dst : obj) (v : item) : exn + obj :=
  if length (obj_shape dst) <? slices then inl IndexError
  else
    match dst with
    | OBool a =>
        match broadcast_to (shape a) (as_bool v) with
        | Some d => inr (OBool (NdArray (shape a) d))
        | None => inl ValueError
        end
    | OFloat a =>
        match broadcast_to (shape a) (as_float v) with
        | Some d => inr (OFloat (NdArray (shape a) d))
        | None => inl ValueError
        end
    end.

(** Writing [v] into the object a value refers to.  [None] and numbers do
    not support item assignment. *)
Definition write_through (name : string) (slices : nat) (v : item) (target : value) : M unit :=
  fun s =>
    match target with
    | VRef l =>
        match heap (py s) !! l with
        | Some o =>
            match store slices o v with
            | inr o' => (Val tt, MState (PyState (attrs (py s)) (<[l := o']> (heap (py s))))
                                        (trace s ++ [SetItem name]))
            | inl e => (Exc e, s)
            end
        | None => (Exc SystemError, s)
        end
    | _ => (Exc TypeError, s)
    end.

(** [self.name[:, ..., :] = v]: the attribute is read, and the object it
    refers to is written in place; the attribute itself is not rebound. *)
Definition setitem (name : string) (slices : nat) (v : item) : M unit :=
  target ← getattr name; write_through name slices v target.

(** [self.init()] *)
Definition call_init (base : Ensemble) : M unit :=
  fun s => let '(r, p') := init base (py s) in (r, MState p' (trace s ++ [CallInit])).

(** ** class HeliumEnsemble(sscha.Ensemble.Ensemble) *)

(** Lines 30-41. *)
Definition compute_ensemble (base : Ensemble) (g : globals)
    (args : list value) (kwargs : list (string * value)) : M unit :=
  setattr "has_stress" (VBool false);;
  k ← lift (load_kernel g);
  xats ← getattr "xats";
  x ← deref xats;
  r ← call_kernel k x;
  '(energies, forces) ← lift (unpack2 r);
  setitem "force_computed" 1 (RBool true);;
  setitem "forces" 3 forces;;
  setitem "energies" 1 energies;;
  call_init base.

(** Lines 43-44. *)
Definition get_energy_forces (base : Ensemble) (g : globals)
    (argd : list value) (kwargs : list (string * value)) : M unit :=
  compute_ensemble base g [] [].

(** ** Reading an ensemble *)

(** The array an attribute refers to. *)
Definition array_at (p : pystate) (name : string) : option obj :=
  match attrs p !! name with
  | Some (VRef l) => heap p !! l
  | _ => None
  end.

Definition float_array_at (p : pystate) (name : string) : option (ndarray scalar) :=
  match array_at p name with Some (OFloat a) => Some a | _ => None end.

Definition bool_array_at (p : pystate) (name : string) : option (ndarray bool) :=
  match array_at p name with Some (OBool a) => Some a | _ => None end.

Definition has_shape {A} (sh : list nat) (a : ndarray A) : bool :=
  bool_decide (shape a = sh) && bool_decide (length (data a) = size sh).

(** An ensemble of [n] configurations of [na] atoms, as the host framework
    lays it out: positions [xats] and [forces] of shape [(n, na, 3)],
    [energies] of shape [(n,)], and the flags [force_computed] of shape
    [(n,)]. *)
Definition ensemble_of (n na : nat) (p : pystate) : bool :=
  match float_array_at p "xats", float_array_at p "energies",
        float_array_at p "forces", bool_array_at p "force_computed" with
  | Some x, Some e, Some f, Some c =>
      has_shape [n; na; 3] x && has_shape [n] e && has_shape [n; na; 3] f && has_shape [n] c
  | _, _, _, _ => false
  end.

(** What [self.name] evaluates to when passed as an argument. *)
Definition argument_of (p : pystate) (name : string) : option arg :=
  v ← attrs p !! name; referent p v.

(** The pair of energies and forces the kernel answers for the ensemble,
    when the kernel is there, returns, and its result unpacks. *)
Definition kernel_answer (g : globals) (p : pystate) : option (item * item) :=
  match load_kernel g, argument_of p "xats" with
  | inr k, Some x =>
      match k x with
      | Val r => match unpack2 r with inr ef => Some ef | inl _ => None end
      | Exc _ => None
      end
  | _, _ => None
  end.

(** What the adapter stores in an ensemble. *)
Definition results (p : pystate) : option value * option obj * option obj * option obj :=
  (attrs p !! "has_stress", array_at p "force_computed", array_at p "forces", array_at p "energies").

(** A post-update hook that, when it returns, has left the stored results
    as they were. *)
Definition keeps_results (base : Ensemble) : Prop :=
  forall p p', init base p = (Val tt, p') -> results p' = results p.

(** The attributes the statements of [compute_ensemble] rebind, and the
    ones whose arrays they write into. *)
Definition rebound : list string := ["has_stress"].
Definition written : list string := ["force_computed"; "forces"; "energies"].

(** The places in the heap that the attributes in [names] refer to. *)
Definition referents (p : pystate) (names : list string) : list loc :=
  omap (fun name => match attrs p !! name with Some (VRef l) => Some l | _ => None end) names.

(** [p'] differs from [p] at most in the binding of [has_stress] and in
    the contents of the arrays behind [force_computed], [forces] and
    [energies]. *)
Definition touches_only_results (p p' : pystate) : Prop :=
  (forall name, name ∉ rebound -> attrs p' !! name = attrs p !! name) /\
  (forall l, l ∉ referents p written -> heap p' !! l = heap p !! l).

(** The state in which the kernel is called, and the trace up to the
    call. *)
Definition at_kernel_call (s : mstate) (x : arg) : mstate :=
  MState (PyState (<["has_stress" := VBool false]> (attrs (py s))) (heap (py s)))
         (trace s ++ [SetAttr "has_stress" (VBool false); CallKernel x]).

(** A computation all of whose effects on the ensemble are of that kind. *)
Definition confined {A} (m : M A) : Prop :=
  forall s r s', m s = (r, s') -> touches_only_results (py s) (py s').

(** A computation that either ends with such effects only, or hands a
    state with such effects only to [init] and ends as [init] does. *)
Definition confined_before_init (base : Ensemble) (m : M unit) : Prop :=
  forall s r s', m s = (r, s') ->
    touches_only_results (py s) (py s') \/
    exists p, touches_only_results (py s) p /\ init base p = (r, py s').

(** Position of the first occurrence of an event satisfying [f]. *)
Fixpoint position (f : event -> bool) (t : list event) : option nat :=
  match t with
  | [] => None
  | ev :: t' => if f ev then Some 0 else S <$> position f t'
  end.

Definition is_flagging (ev : event) : bool :=
  match ev with SetItem name => String.eqb name "force_computed" | _ => false end.

Definition is_copy (ev : event) : bool :=
  match ev with
  | SetItem name => String.eqb name "forces" || String.eqb name "energies"
  | _ => false
  end.

(** Every copy of a result happens before the flags are set. *)
Definition copies_precede_flagging (t : list event) : bool :=
  match position is_flagging t with
  | Some i => forallb (fun ev => negb (is_copy ev)) (drop i t)
  | None => false
  end.

(** The steps in the order the specification lists them: the results are
    copied first, the flags are set afterwards. *)
Definition compute_ensemble_as_specified (base : Ensemble) (g : globals)
    (args : list value) (kwargs : list (string * value)) : M unit :=
  setattr "has_stress" (VBool false);;
  k ← lift (load_kernel g);
  xats ← getattr "xats";
  x ← deref xats;
  r ← call_kernel k x;
  '(energies, forces) ← lift (unpack2 r);
  setitem "forces" 3 forces;;
  setitem "energies" 1 energies;;
  setitem "force_computed" 1 (RBool true);;
  call_init base.

End Adapter.

Arguments obj : clear implicits.
Arguments value : clear implicits.
Arguments pystate : clear implicits.
Arguments arg : clear implicits.
Arguments item : clear implicits.
Arguments retval : clear implicits.
Arguments kernel : clear implicits.
Arguments julia_Main : clear implicits.
Arguments julia_package : clear implicits.
Arguments globals : clear implicits.
Arguments Ensemble : clear implicits.
Arguments event : clear implicits.
Arguments mstate : clear implicits.
Arguments M : clear implicits.

(** * A small ensemble to run the code on *)

Module Sample.

#[global] Instance Z_casts : Casts Z :=
  {| of_bool := Z.b2z; to_bool := fun x => negb (x =? 0)%Z |}.

(** Two configurations of one atom at temperature 250; nothing computed
    yet, stresses announced.  The array at 4 belongs to no attribute. *)
Definition ensemble : pystate Z :=
  PyState
    (<["current_T" := VFloat 250%Z]>
     (<["has_stress" := VBool true]>
      (<["xats" := VRef 0]>
       (<["energies" := VRef 1]>
        (<["forces" := VRef 2]>
         (<["force_computed" := VRef 3]> ∅))))))
    (<[0 := OFloat (NdArray [2; 1; 3] [1; 2; 3; 4; 5; 6]%Z)]>
     (<[1 := OFloat (NdArray [2] [0; 0]%Z)]>
      (<[2 := OFloat (NdArray [2; 1; 3] [0; 0; 0; 0; 0; 0]%Z)]>
       (<[3 := OBool (NdArray [2] [false; false])]>
        (<[4 := OFloat (NdArray [2] [7; 7]%Z)]> ∅))))).

Definition start : mstate Z := MState ensemble [].

Definition kernel_energies : ndarray Z := NdArray [2] [-10; -20]%Z.
Definition kernel_forces : ndarray Z := NdArray [2; 1; 3] [11; 12; 13; 21; 22; 23]%Z.

(** A kernel that answers with one energy and one force block per
    configuration. *)
Definition aligned_kernel : kernel Z :=
  fun _ => Val (RTuple [RArr (OFloat kernel_energies); RArr (OFloat kernel_forces)]).

(** A kernel whose forces fit but whose energies do not. *)
Definition short_energies_kernel : kernel Z :=
  fun _ => Val (RTuple [RArr (OFloat (NdArray [3] [-1; -2; -3]%Z));
                        RArr (OFloat kernel_forces)]).

(** A kernel whose forces do not fit. *)
Definition short_forces_kernel : kernel Z :=
  fun _ => Val (RTuple [RArr (OFloat kernel_energies);
                        RArr (OFloat (NdArray [3; 1; 3] [1; 2; 3; 4; 5; 6; 7; 8; 9]%Z))]).

(** A kernel that answers with a single energy and a single force block,
    whatever the number of configurations. *)
Definition uniform_kernel : kernel Z :=
  fun _ => Val (RTuple [RFloat (-5)%Z; RArr (OFloat (NdArray [1; 3] [1; 2; 3]%Z))]).

Definition failing_kernel : kernel Z := fun _ => Exc (JuliaError 1).

Definition with_kernel (k : kernel Z) : globals Z :=
  Globals (Some (JuliaPackage (Some (JuliaMain (Some k))))).

(** The module globals the three ways the bridge can be missing. *)
Definition no_julia : globals Z := Globals None.
Definition no_Main : globals Z := Globals (Some (JuliaPackage None)).
Definition no_function : globals Z := Globals (Some (JuliaPackage (Some (JuliaMain None)))).

(** A host class whose [init] changes nothing. *)
Definition quiet_base : Ensemble Z := EnsembleClass (fun p => (Val tt, p)).

(** A host class whose [init] resets the sampling weights it keeps under
    [rho]. *)
Definition weights_base : Ensemble Z :=
  EnsembleClass (fun p => (Val tt, PyState (<["rho" := VRef 4]> (attrs p)) (heap p))).

End Sample.

(** * Further notions: effects, layout, and more ensembles *)

Section Further.

Context {scalar : Type} `{!Casts scalar}.

(** The effects of a complete run, given what [self.xats] evaluates to; a
    run cannot get past the lookup when it evaluates to nothing. *)
Definition steps (ox : option (arg scalar)) : list (event scalar) :=
  SetAttr "has_stress" (VBool false) ::
  match ox with
  | Some x => [CallKernel x; SetItem "force_computed"; SetItem "forces";
               SetItem "energies"; CallInit]
  | None => []
  end.

(** Two array objects of the same element type and the same shape. *)
Definition same_kind (o o' : obj scalar) : Prop :=
  match o, o' with
  | OBool a, OBool a' => shape a = shape a'
  | OFloat a, OFloat a' => shape a = shape a'
  | _, _ => False
  end.

(** [p'] has the array objects of [p], each at its place, with its element
    type and its shape: none was created, dropped, retyped or reshaped. *)
Definition same_layout (p p' : pystate scalar) : Prop :=
  forall l : loc, option_Forall2 same_kind (heap p !! l) (heap p' !! l).

Definition keeps_layout {A} (m : M scalar A) : Prop :=
  forall s r s', m s = (r, s') -> same_layout (py s) (py s').

Definition keeps_layout_before_init (base : Ensemble scalar) (m : M scalar unit) : Prop :=
  forall s r s', m s = (r, s') ->
    same_layout (py s) (py s') \/
    exists p, same_layout (py s) p /\ init base p = (r, py s').

(** The state a run hands to [init] when the flags were written at [lc], the
    forces at [lf] and the energies at [le]. *)
Definition handed_to_init (p : pystate scalar) (lc lf le : loc) (n na : nat)
    (fd ed : list scalar) : pystate scalar :=
  PyState (<["has_stress" := VBool false]> (attrs p))
          (<[le := OFloat (NdArray [n] ed)]>
           (<[lf := OFloat (NdArray [n; na; 3] fd)]>
            (<[lc := OBool (NdArray [n] (replicate n true))]> (heap p)))).


(** How a run ends once [init] is entered in [p] after the effects
    [t]. *)
Definition ends_in_init (base : Ensemble scalar) (p : pystate scalar)
    (t : list (event scalar)) : outcome unit * mstate scalar :=
  (fst (init base p), MState (snd (init base p)) (t ++ [CallInit])).

End Further.

Module Cases.

Import Sample.

(** The sample ensemble with [forces] bound to the array of [xats]. *)
Definition aliased : pystate Z :=
  PyState (<["forces" := VRef 0]> (attrs ensemble)) (heap ensemble).

(** The sample ensemble before any configuration was flagged:
    [force_computed] is [None]. *)
Definition unflagged : pystate Z :=
  PyState (<["force_computed" := VNone]> (attrs ensemble)) (heap ensemble).

(** The sample ensemble without positions. *)
Definition without_xats : pystate Z :=
  PyState (delete "xats" (attrs ensemble)) (heap ensemble).

(** The sample ensemble with forces kept as a matrix of shape [(2, 3)]. *)
Definition flat_forces : pystate Z :=
  PyState (attrs ensemble)
          (<[2 := OFloat (NdArray [2; 3] [0; 0; 0; 0; 0; 0]%Z)]> (heap ensemble)).

(** A kernel that answers with three components. *)
Definition triple_kernel : kernel Z :=
  fun _ => Val (RTuple [RArr (OFloat kernel_energies); RArr (OFloat kernel_forces);
                        RFloat 0%Z]).

(** A kernel that answers with [nothing]. *)
Definition silent_kernel : kernel Z := fun _ => Val RNone.

(** The positions of the sample ensemble, as the kernel receives them. *)
Definition positions : arg Z := AArr (OFloat (NdArray [2; 1; 3] [1; 2; 3; 4; 5; 6]%Z)).

End Cases.

(** * Facts about broadcasting *)

Lemma size_cons d sh : size (d :: sh) = d * size sh.
Proof. reflexivity. Qed.

Lemma ravel_unravel sh : forall j, j < size sh -> ravel sh (unravel sh j) = j.
Proof.
  induction sh as [|d rest IH]; intros j Hj.
  - cbn in *. lia.
  - rewrite size_cons in Hj. cbn [unravel ravel].
    destruct (decide (size rest = 0)) as [H0|H0].
    + rewrite H0 in Hj. lia.
    + rewrite IH by (apply Nat.mod_upper_bound; done).
      pose proof (Nat.div_mod_eq j (size rest)). lia.
Qed.

Lemma clamp_unravel sh : forall j, j < size sh -> clamp sh (unravel sh j) = unravel sh j.
Proof.
  unfold clamp.
  induction sh as [|d rest IH]; intros j Hj; [done|].
  rewrite size_cons in Hj. cbn [unravel zip_with].
  destruct (decide (size rest = 0)) as [H0|H0]; [rewrite H0 in Hj; lia|].
  f_equal.
  - destruct (Nat.eqb_spec d 1) as [->|]; [|done].
    symmetry. apply Nat.div_small. lia.
  - apply IH, Nat.mod_upper_bound; done.
Qed.

Lemma align_same sh : align (length sh) sh = Some sh.
Proof.
  unfold align. rewrite decide_True by done.
  by rewrite Nat.sub_diag.
Qed.

Lemma compatible_same sh : compatible sh sh = true.
Proof. induction sh as [|d rest IH]; [done|]. cbn. by rewrite Nat.eqb_refl, IH. Qed.

Lemma mapM_lookup_seq {A} (l : list A) (f : nat -> nat) :
  (forall j, j < length l -> f j = j) ->
  mapM (fun j => l !! f j) (seq 0 (length l)) = Some l.
Proof.
  intros Hf. apply mapM_Some.
  apply Forall2_same_length_lookup. split; [by rewrite length_seq|].
  intros i j x Hi Hx.
  apply lookup_seq in Hi as [-> Hlt]. cbn. rewrite Hf by done. done.
Qed.

(** Assigning an array of the target's own shape stores its elements as
    they are. *)
Lemma broadcast_to_same {A} (a : ndarray A) :
  consistent a -> broadcast_to (shape a) a = Some (data a).
Proof.
  intros Ha. unfold broadcast_to. rewrite align_same. cbn.
  rewrite compatible_same. rewrite <- Ha.
  apply mapM_lookup_seq. intros j Hj. rewrite Ha in Hj.
  unfold source_index. by rewrite clamp_unravel, ravel_unravel.
Qed.

(** Whatever is assigned, the target receives as many elements as its
    shape has places. *)
Lemma broadcast_to_length {A} ds (a : ndarray A) l :
  broadcast_to ds a = Some l -> length l = size ds.
Proof.
  unfold broadcast_to. intros H.
  destruct (align _ _) as [ss|]; [|done]. cbn in H.
  destruct (compatible ds ss); [|done].
  apply length_mapM in H. by rewrite <- H, length_seq.
Qed.

Lemma ravel_ones_zeros n idx : ravel (replicate n 1) (clamp (replicate n 1) idx) = 0.
Proof.
  unfold clamp. revert idx. induction n as [|n IH]; intros [|i idx]; try done.
  cbn [replicate zip_with ravel]. rewrite (IH idx). cbn. lia.
Qed.

Lemma compatible_ones ds : compatible ds (replicate (length ds) 1) = true.
Proof. induction ds as [|d ds IH]; [done|]. cbn. by rewrite IH, orb_true_r. Qed.

(** Assigning a single number fills the target with it. *)
Lemma broadcast_to_scalar {A} ds (x : A) :
  broadcast_to ds (NdArray [] [x]) = Some (replicate (size ds) x).
Proof.
  unfold broadcast_to, align. cbn [shape length data].
  rewrite decide_True by lia. rewrite Nat.sub_0_r, app_nil_r. cbn.
  rewrite compatible_ones.
  apply mapM_Some. apply Forall2_same_length_lookup.
  split; [by rewrite length_seq, length_replicate|].
  intros i j y Hi Hy. apply lookup_seq in Hi as [-> Hlt].
  apply lookup_replicate in Hy as [-> _].
  unfold source_index. cbn [data]. by rewrite ravel_ones_zeros.
Qed.

Example broadcast_row : broadcast_to [2; 3] (NdArray [3] [10; 20; 30]) = Some [10; 20; 30; 10; 20; 30].
Proof. reflexivity. Qed.

Example broadcast_column : broadcast_to [2; 3] (NdArray [2; 1] [10; 20]) = Some [10; 10; 10; 20; 20; 20].
Proof. reflexivity. Qed.

Example broadcast_scalar : broadcast_to [2; 2] (NdArray [] [7]) = Some [7; 7; 7; 7].
Proof. reflexivity. Qed.

Example broadcast_leading_one : broadcast_to [3] (NdArray [1; 1; 3] [1; 2; 3]) = Some [1; 2; 3].
Proof. reflexivity. Qed.

Example broadcast_mismatch : broadcast_to [3] (NdArray [2] [1; 2]) = None.
Proof. reflexivity. Qed.

Example broadcast_rank_mismatch : broadcast_to [3] (NdArray [2; 3] [1; 2; 3; 4; 5; 6]) = None.
Proof. reflexivity. Qed.

(** * Facts about the adapter *)

Section AdapterFacts.
Context {scalar : Type} `{!Casts scalar}.
Implicit Types (s : mstate scalar) (p : pystate scalar) (g : globals scalar)
  (base : Ensemble scalar) (k : kernel scalar).

Lemma bind_run {A B} (m : M scalar A) (f : A -> M scalar B) s :
  (m ≫= f) s = match m s with
               | (Val a, s1) => f a s1
               | (Exc e, s1) => (Exc e, s1)
               end.
Proof. reflexivity. Qed.

Lemma bind_Val {A B} (m : M scalar A) (f : A -> M scalar B) s b s' :
  (m ≫= f) s = (Val b, s') -> exists a s1, m s = (Val a, s1) /\ f a s1 = (Val b, s').
Proof.
  rewrite bind_run. destruct (m s) as [[a|e] s1]; [eauto | discriminate].
Qed.

Lemma bind_cases {A B} (m : M scalar A) (f : A -> M scalar B) s r s' :
  (m ≫= f) s = (r, s') ->
  (exists e, m s = (Exc e, s') /\ r = Exc e) \/
  (exists a s1, m s = (Val a, s1) /\ f a s1 = (r, s')).
Proof.
  rewrite bind_run. destruct (m s) as [[a|e] s1]; [eauto |].
  intros [= <- <-]. left. eauto.
Qed.

Lemma lift_Val {A} (r : exn + A) s a s' :
  lift r s = (Val a, s') -> r = inr a /\ s' = s.
Proof. destruct r; cbn; intros [= -> ->]; done. Qed.

Lemma getattr_Val name s v s' :
  getattr name s = (Val v, s') -> attrs (py s) !! name = Some v /\ s' = s.
Proof. unfold getattr. destruct (_ !! _); intros [= -> ->]; done. Qed.

Lemma deref_Val v s x s' :
  deref v s = (Val x, s') -> referent (py s) v = Some x /\ s' = s.
Proof. unfold deref. destruct (referent _ _); intros [= -> ->]; done. Qed.

Lemma call_kernel_Val k x s r s' :
  call_kernel k x s = (Val r, s') ->
  k x = Val r /\ s' = MState (py s) (trace s ++ [CallKernel x]).
Proof. unfold call_kernel. intros [= -> <-]. done. Qed.

Lemma setitem_Val name slices v s u s' :
  setitem name slices v s = (Val u, s') ->
  exists l o o',
    attrs (py s) !! name = Some (VRef l) /\
    heap (py s) !! l = Some o /\
    store slices o v = inr o' /\
    s' = MState (PyState (attrs (py s)) (<[l := o']> (heap (py s))))
                (trace s ++ [SetItem name]).
Proof.
  unfold setitem. intros H.
  apply bind_Val in H as (t & s1 & Hget & H).
  apply getattr_Val in Hget as [Hget ->].
  unfold write_through in H.
  destruct t as [| | |l]; try discriminate.
  destruct (heap (py s) !! l) as [o|] eqn:Ho; [|discriminate].
  destruct (store slices o v) as [e|o'] eqn:Hst; [discriminate|].
  injection H as _ <-. eauto 10.
Qed.

Lemma call_init_run base s r s' :
  call_init base s = (r, s') ->
  exists p', init base (py s) = (r, p') /\ s' = MState p' (trace s ++ [CallInit]).
Proof.
  unfold call_init. destruct (init base (py s)) as [r0 p'].
  intros [= -> <-]. eauto.
Qed.

(** A run that returns went through every statement. *)
Lemma compute_ensemble_returns base g args kwargs s s' :
  compute_ensemble base g args kwargs s = (Val tt, s') ->
  exists x en fo (lc : nat) oc oc' (lf : nat) of_ of' (le : nat) oe oe',
    argument_of (py s) "xats" = Some x /\
    kernel_answer g (py s) = Some (en, fo) /\
    attrs (py s) !! "force_computed" = Some (VRef lc) /\
    heap (py s) !! lc = Some oc /\
    store 1 oc (RBool true) = inr oc' /\
    attrs (py s) !! "forces" = Some (VRef lf) /\
    <[lc := oc']> (heap (py s)) !! lf = Some of_ /\
    store 3 of_ fo = inr of' /\
    attrs (py s) !! "energies" = Some (VRef le) /\
    <[lf := of']> (<[lc := oc']> (heap (py s))) !! le = Some oe /\
    store 1 oe en = inr oe' /\
    init base (PyState (<["has_stress" := VBool false]> (attrs (py s)))
                       (<[le := oe']> (<[lf := of']> (<[lc := oc']> (heap (py s))))))
      = (Val tt, py s') /\
    trace s' = trace s ++ [SetAttr "has_stress" (VBool false); CallKernel x;
                           SetItem "force_computed"; SetItem "forces";
                           SetItem "energies"; CallInit].
Proof.
  unfold compute_ensemble. intros H.
  apply bind_Val in H as ([] & s1 & Hset & H).
  injection Hset as <-.
  apply bind_Val in H as (k & s2 & Hk & H). apply lift_Val in Hk as [Hk ->].
  apply bind_Val in H as (xv & s2 & Hx & H). apply getattr_Val in Hx as [Hx ->].
  apply bind_Val in H as (x & s2 & Hd & H). apply deref_Val in Hd as [Hd ->].
  apply bind_Val in H as (r & s2 & Hc & H). apply call_kernel_Val in Hc as [Hc ->].
  apply bind_Val in H as ([en fo] & s2 & Hu & H). apply lift_Val in Hu as [Hu ->].
  apply bind_Val in H as (u1 & s2 & H1 & H).
  apply setitem_Val in H1 as (lc & oc & oc' & Hlc & Hoc & Hsc & ->).
  apply bind_Val in H as (u2 & s2 & H2 & H).
  apply setitem_Val in H2 as (lf & of_ & of' & Hlf & Hof & Hsf & ->).
  apply bind_Val in H as (u3 & s2 & H3 & H).
  apply setitem_Val in H3 as (le & oe & oe' & Hle & Hoe & Hse & ->).
  apply call_init_run in H as (p' & Hinit & ->).
  cbn in *. rewrite lookup_insert_ne in Hx, Hlc, Hlf, Hle by done.
  exists x, en, fo, lc, oc, oc', lf, of_, of', le, oe, oe'.
  assert (Harg : argument_of (py s) "xats" = Some x).
  { unfold argument_of. rewrite Hx. cbn. destruct xv; done. }
  split_and!; try done.
  - unfold kernel_answer. by rewrite Hk, Harg, Hc, Hu.
  - by rewrite <- !app_assoc.
Qed.

Lemma has_shape_spec {A} sh (a : ndarray A) :
  has_shape sh a = true <-> shape a = sh /\ length (data a) = size sh.
Proof.
  unfold has_shape. rewrite andb_true_iff, !bool_decide_eq_true. done.
Qed.

Lemma float_array_at_Some p name a :
  float_array_at p name = Some a ->
  exists l : nat, attrs p !! name = Some (VRef l) /\ heap p !! l = Some (OFloat a).
Proof.
  unfold float_array_at, array_at. intros H.
  destruct (attrs p !! name) as [[| | |l]|]; try discriminate.
  destruct (heap p !! l) as [[|a']|] eqn:Hl; try discriminate.
  injection H as ->. eauto.
Qed.

Lemma bool_array_at_Some p name a :
  bool_array_at p name = Some a ->
  exists l : nat, attrs p !! name = Some (VRef l) /\ heap p !! l = Some (OBool a).
Proof.
  unfold bool_array_at, array_at. intros H.
  destruct (attrs p !! name) as [[| | |l]|]; try discriminate.
  destruct (heap p !! l) as [[a'|]|] eqn:Hl; try discriminate.
  injection H as ->. eauto.
Qed.

(** The arrays of an ensemble laid out by the host framework. *)
Lemma ensemble_of_arrays n na p :
  ensemble_of n na p = true ->
  exists (lc lf le : nat) c f e,
    attrs p !! "force_computed" = Some (VRef lc) /\ heap p !! lc = Some (OBool c) /\
    attrs p !! "forces" = Some (VRef lf) /\ heap p !! lf = Some (OFloat f) /\
    attrs p !! "energies" = Some (VRef le) /\ heap p !! le = Some (OFloat e) /\
    shape c = [n] /\ shape f = [n; na; 3] /\ shape e = [n] /\
    lc <> lf /\ lc <> le /\ lf <> le.
Proof.
  unfold ensemble_of. intros H.
  destruct (float_array_at p "xats") as [x|] eqn:Hx; [|done].
  destruct (float_array_at p "energies") as [e|] eqn:He; [|done].
  destruct (float_array_at p "forces") as [f|] eqn:Hf; [|done].
  destruct (bool_array_at p "force_computed") as [c|] eqn:Hc; [|done].
  rewrite !andb_true_iff, !has_shape_spec in H.
  destruct H as [[[_ [Hse _]] [Hsf _]] [Hsc _]].
  apply float_array_at_Some in He as (le & Hae & Hhe).
  apply float_array_at_Some in Hf as (lf & Haf & Hhf).
  apply bool_array_at_Some in Hc as (lc & Hac & Hhc).
  exists lc, lf, le, c, f, e. split_and!; try done.
  - intros ->. congruence.
  - intros ->. congruence.
  - intros ->. congruence.
Qed.

Lemma store_float slices a v o' :
  store slices (OFloat a) v = inr o' ->
  exists d, broadcast_to (shape a) (as_float v) = Some d /\ o' = OFloat (NdArray (shape a) d).
Proof.
  unfold store. destruct (_ <? _); [discriminate|].
  destruct (broadcast_to _ _) as [d|]; [|discriminate].
  intros [= <-]. eauto.
Qed.

Lemma store_bool slices a v o' :
  store slices (OBool a) v = inr o' ->
  exists d, broadcast_to (shape a) (as_bool v) = Some d /\ o' = OBool (NdArray (shape a) d).
Proof.
  unfold store. destruct (_ <? _); [discriminate|].
  destruct (broadcast_to _ _) as [d|]; [|discriminate].
  intros [= <-]. eauto.
Qed.

(** On an ensemble of the host's layout, a run that returns has handed
    [init] a state holding the kernel's answer, assigned array by array. *)
Lemma compute_ensemble_stores base g args kwargs n na s s' :
  ensemble_of n na (py s) = true ->
  compute_ensemble base g args kwargs s = (Val tt, s') ->
  exists en fo ed fd p3,
    kernel_answer g (py s) = Some (en, fo) /\
    broadcast_to [n] (as_float en) = Some ed /\
    broadcast_to [n; na; 3] (as_float fo) = Some fd /\
    init base p3 = (Val tt, py s') /\
    results p3 = (Some (VBool false),
                  Some (OBool (NdArray [n] (replicate n true))),
                  Some (OFloat (NdArray [n; na; 3] fd)),
                  Some (OFloat (NdArray [n] ed))).
Proof.
  intros Hens Hrun.
  apply ensemble_of_arrays in Hens
    as (lc & lf & le & c & f & e & Hac & Hhc & Haf & Hhf & Hae & Hhe & Hsc & Hsf & Hse & Hcf & Hce & Hfe).
  apply compute_ensemble_returns in Hrun
    as (x & en & fo & lc' & oc & oc' & lf' & of_ & of' & le' & oe & oe'
        & _ & Hans & Hlc & Hoc & Hstc & Hlf & Hof & Hstf & Hle & Hoe & Hste & Hinit & _).
  simplify_eq.
  rewrite lookup_insert_ne in Hof by done.
  rewrite !lookup_insert_ne in Hoe by done.
  simplify_eq.
  apply store_bool in Hstc as (dc & Hdc & ->).
  apply store_float in Hstf as (fd & Hfd & ->).
  apply store_float in Hste as (ed & Hed & ->).
  cbn [as_bool] in Hdc. rewrite broadcast_to_scalar in Hdc. injection Hdc as <-.
  rewrite Hsc, Hsf, Hse in *.
  exists en, fo, ed, fd. eexists. split_and!; [done..|].
  unfold results, array_at. cbn [attrs heap].
  rewrite lookup_insert_eq, !lookup_insert_ne by done.
  rewrite Hac, Haf, Hae.
  rewrite lookup_insert_eq.
  rewrite (lookup_insert_ne _ le lf), lookup_insert_eq by done.
  rewrite (lookup_insert_ne _ le lc), (lookup_insert_ne _ lf lc), lookup_insert_eq by done.
  cbn. by rewrite Nat.mul_1_r.
Qed.
(** ** What a run may touch *)

Lemma referents_agree p p' names :
  (forall name, name ∈ names -> attrs p' !! name = attrs p !! name) ->
  referents p' names = referents p names.
Proof.
  intros H. unfold referents.
  induction names as [|name names IH]; [done|].
  cbn. rewrite H by set_solver. rewrite IH; [done|].
  intros name' Hin. apply H. set_solver.
Qed.

Lemma touches_refl p : touches_only_results p p.
Proof. split; done. Qed.

Lemma touches_trans p1 p2 p3 :
  touches_only_results p1 p2 -> touches_only_results p2 p3 -> touches_only_results p1 p3.
Proof.
  intros [Ha Hh] [Ha' Hh']. split.
  - intros name Hn. by rewrite Ha', Ha.
  - intros l Hl. rewrite Hh', Hh; [done..|].
    rewrite (referents_agree p1 p2); [done|].
    intros name Hn. apply Ha. unfold rebound, written in *.
    intros Hr. apply list_elem_of_singleton in Hr as ->.
    repeat (apply elem_of_cons in Hn as [Hn|Hn]; [discriminate|]).
    by apply elem_of_nil in Hn.
Qed.

Lemma referent_elem p name (l : nat) names :
  name ∈ names -> attrs p !! name = Some (VRef l) -> l ∈ referents p names.
Proof.
  intros Hin Hl. unfold referents. apply list_elem_of_omap.
  exists name. by rewrite Hl.
Qed.

Lemma confined_bind {A B} (m : M scalar A) (f : A -> M scalar B) :
  confined m -> (forall a, confined (f a)) -> confined (m ≫= f).
Proof.
  intros Hm Hf s r s' H.
  apply bind_cases in H as [(e & H & ->)|(a & s1 & H1 & H2)].
  - by eapply Hm.
  - eapply touches_trans; [by eapply Hm | by eapply Hf].
Qed.

Lemma confined_before_init_bind {A} base (m : M scalar A) (f : A -> M scalar unit) :
  confined m -> (forall a, confined_before_init base (f a)) ->
  confined_before_init base (m ≫= f).
Proof.
  intros Hm Hf s r s' H.
  apply bind_cases in H as [(e & H & ->)|(a & s1 & H1 & H2)].
  - left. by eapply Hm.
  - apply Hm in H1. apply Hf in H2 as [H2|(p & H2 & Hinit)].
    + left. by eapply touches_trans.
    + right. exists p. split; [by eapply touches_trans | done].
Qed.

Lemma confined_setattr_has_stress (v : value scalar) : confined (setattr "has_stress" v).
Proof.
  intros s r s' [= <- <-]. split; cbn; [|done].
  intros name Hn. apply lookup_insert_ne. intros <-. apply Hn, list_elem_of_singleton. done.
Qed.

Lemma confined_lift {A} (x : exn + A) : confined (lift (scalar:=scalar) x).
Proof. intros s r s' H. destruct x; injection H as <- <-; apply touches_refl. Qed.

Lemma confined_getattr name : confined (getattr (scalar:=scalar) name).
Proof.
  intros s r s' H. unfold getattr in H.
  destruct (_ !! _); injection H as <- <-; apply touches_refl.
Qed.

Lemma confined_deref (v : value scalar) : confined (deref v).
Proof.
  intros s r s' H. unfold deref in H.
  destruct (referent _ _); injection H as <- <-; apply touches_refl.
Qed.

Lemma confined_call_kernel k x : confined (call_kernel k x).
Proof. intros s r s' [= <- <-]. apply touches_refl. Qed.

Lemma confined_setitem name slices (v : item scalar) :
  name ∈ written -> confined (setitem name slices v).
Proof.
  intros Hn s r s' H. unfold setitem in H.
  apply bind_cases in H as [(e & H & ->)|(t & s1 & H1 & H2)].
  { by apply confined_getattr in H. }
  apply getattr_Val in H1 as [Ht ->].
  unfold write_through in H2.
  destruct t as [| | |l]; try (injection H2 as <- <-; apply touches_refl).
  destruct (heap (py s) !! l) as [o|]; [|injection H2 as <- <-; apply touches_refl].
  destruct (store slices o v) as [e|o']; injection H2 as <- <-; [apply touches_refl|].
  split; [done|]. cbn [py heap].
  intros l' Hl'. apply lookup_insert_ne. intros <-. apply Hl'.
  by eapply referent_elem.
Qed.

Lemma confined_before_init_call_init base : confined_before_init base (call_init base).
Proof.
  intros s r s' H. apply call_init_run in H as (p' & H & ->).
  right. exists (py s). split; [apply touches_refl | done].
Qed.

Lemma compute_ensemble_confined base g args kwargs :
  confined_before_init base (compute_ensemble base g args kwargs).
Proof.
  unfold compute_ensemble.
  apply confined_before_init_bind; [apply confined_setattr_has_stress | intros _].
  apply confined_before_init_bind; [apply confined_lift | intros k].
  apply confined_before_init_bind; [apply confined_getattr | intros xats].
  apply confined_before_init_bind; [apply confined_deref | intros x].
  apply confined_before_init_bind; [apply confined_call_kernel | intros r].
  apply confined_before_init_bind; [apply confined_lift | intros [energies forces]].
  apply confined_before_init_bind; [apply confined_setitem; set_solver | intros _].
  apply confined_before_init_bind; [apply confined_setitem; set_solver | intros _].
  apply confined_before_init_bind; [apply confined_setitem; set_solver | intros _].
  apply confined_before_init_call_init.
Qed.
(** ** Running forward *)

Lemma referent_heap p p' (v : value scalar) :
  heap p' = heap p -> referent p' v = referent p v.
Proof. intros H. destruct v; cbn; by rewrite ?H. Qed.

Lemma argument_of_xats p x :
  argument_of p "xats" = Some x ->
  exists v, attrs p !! "xats" = Some v /\ referent p v = Some x.
Proof.
  unfold argument_of. destruct (attrs p !! "xats") as [v|]; [|done]. eauto.
Qed.

Lemma compute_ensemble_no_kernel base g args kwargs s e :
  load_kernel g = inl e ->
  compute_ensemble base g args kwargs s =
    (Exc e, MState (PyState (<["has_stress" := VBool false]> (attrs (py s))) (heap (py s)))
                   (trace s ++ [SetAttr "has_stress" (VBool false)])).
Proof.
  intros Hk. unfold compute_ensemble. rewrite bind_run. cbn.
  rewrite bind_run, Hk. reflexivity.
Qed.

Lemma compute_ensemble_kernel_raises base g args kwargs s k x e :
  load_kernel g = inr k -> argument_of (py s) "xats" = Some x -> k x = Exc e ->
  compute_ensemble base g args kwargs s = (Exc e, at_kernel_call s x).
Proof.
  intros Hk (v & Hv & Hx)%argument_of_xats Hc.
  unfold compute_ensemble. rewrite bind_run. cbn.
  rewrite bind_run, Hk. cbn.
  rewrite bind_run. unfold getattr at 1. cbn. rewrite lookup_insert_ne, Hv by done.
  rewrite bind_run. unfold deref at 1. cbn.
  rewrite (referent_heap (py s)) by done. rewrite Hx.
  rewrite bind_run. unfold call_kernel at 1. cbn. rewrite Hc.
  unfold at_kernel_call. by rewrite <- app_assoc.
Qed.

Lemma compute_ensemble_kernel_returns base g args kwargs s k x r en fo :
  load_kernel g = inr k -> argument_of (py s) "xats" = Some x ->
  k x = Val r -> unpack2 r = inr (en, fo) ->
  compute_ensemble base g args kwargs s =
    (setitem "force_computed" 1 (RBool true);;
     setitem "forces" 3 fo;;
     setitem "energies" 1 en;;
     call_init base) (at_kernel_call s x).
Proof.
  intros Hk (v & Hv & Hx)%argument_of_xats Hc Hu.
  unfold compute_ensemble. rewrite bind_run. cbn.
  rewrite bind_run, Hk. cbn.
  rewrite bind_run. unfold getattr at 1. cbn. rewrite lookup_insert_ne, Hv by done.
  rewrite bind_run. unfold deref at 1. cbn.
  rewrite (referent_heap (py s)) by done. rewrite Hx.
  rewrite bind_run. unfold call_kernel at 1. cbn. rewrite Hc.
  rewrite bind_run, Hu. cbn.
  unfold at_kernel_call. by rewrite <- app_assoc.
Qed.

Lemma setitem_stores name slices (v : item scalar) s (l : nat) o o' :
  attrs (py s) !! name = Some (VRef l) -> heap (py s) !! l = Some o ->
  store slices o v = inr o' ->
  setitem name slices v s =
    (Val tt, MState (PyState (attrs (py s)) (<[l := o']> (heap (py s))))
                    (trace s ++ [SetItem name])).
Proof.
  intros Ha Hh Hs. unfold setitem. rewrite bind_run. unfold getattr.
  rewrite Ha. unfold write_through. by rewrite Hh, Hs.
Qed.

Lemma setitem_refused name slices (v : item scalar) s (l : nat) o e :
  attrs (py s) !! name = Some (VRef l) -> heap (py s) !! l = Some o ->
  store slices o v = inl e ->
  setitem name slices v s = (Exc e, s).
Proof.
  intros Ha Hh Hs. unfold setitem. rewrite bind_run. unfold getattr.
  rewrite Ha. unfold write_through. by rewrite Hh, Hs.
Qed.

Lemma store_flags (c : ndarray bool) n :
  shape c = [n] ->
  store 1 (OBool c) (RBool true : item scalar) = inr (OBool (NdArray [n] (replicate n true))).
Proof.
  intros Hc. unfold store. cbn. rewrite Hc. cbn.
  rewrite broadcast_to_scalar. cbn. by rewrite Nat.mul_1_r.
Qed.

Lemma store_float_ok slices (a : ndarray scalar) (v : item scalar) d :
  slices <= length (shape a) ->
  broadcast_to (shape a) (as_float v) = Some d ->
  store slices (OFloat a) v = inr (OFloat (NdArray (shape a) d)).
Proof.
  intros Hn Hb. unfold store. cbn [obj_shape].
  destruct (Nat.ltb_spec (length (shape a)) slices); [lia|]. by rewrite Hb.
Qed.

Lemma store_float_refused slices (a : ndarray scalar) (v : item scalar) :
  slices <= length (shape a) ->
  broadcast_to (shape a) (as_float v) = None ->
  store slices (OFloat a) v = inl ValueError.
Proof.
  intros Hn Hb. unfold store. cbn [obj_shape].
  destruct (Nat.ltb_spec (length (shape a)) slices); [lia|]. by rewrite Hb.
Qed.
Lemma results_float_arrays p (v : option (value scalar)) c f e :
  results p = (v, Some (OBool c), Some (OFloat f), Some (OFloat e)) ->
  attrs p !! "has_stress" = v /\
  bool_array_at p "force_computed" = Some c /\
  float_array_at p "forces" = Some f /\
  float_array_at p "energies" = Some e.
Proof.
  unfold results, bool_array_at, float_array_at.
  intros [= -> -> -> ->]. done.
Qed.

(** ** The claims *)

(** C1.  On an ensemble holding [n] configurations, laid out as the host
    framework lays it out, and with a host [init] that leaves the stored
    results alone: once [compute_ensemble] has returned, the energy array
    has exactly [n] entries and the force array exactly [n] blocks, each
    filled from the kernel's answer; every entry of [force_computed] is
    [True]; and [has_stress] is [False]. *)
Theorem compute_ensemble_populates base g args kwargs n na s s' :
  ensemble_of n na (py s) = true ->
  keeps_results base ->
  compute_ensemble base g args kwargs s = (Val tt, s') ->
  exists e f c en fo,
    float_array_at (py s') "energies" = Some e /\
    shape e = [n] /\ length (data e) = n /\
    float_array_at (py s') "forces" = Some f /\
    shape f = [n; na; 3] /\ length (data f) = n * (na * 3) /\
    kernel_answer g (py s) = Some (en, fo) /\
    broadcast_to [n] (as_float en) = Some (data e) /\
    broadcast_to [n; na; 3] (as_float fo) = Some (data f) /\
    bool_array_at (py s') "force_computed" = Some c /\
    shape c = [n] /\ data c = replicate n true /\
    attrs (py s') !! "has_stress" = Some (VBool false).
Proof.
  intros Hens Hkeep Hrun.
  destruct (compute_ensemble_stores _ _ _ _ _ _ _ _ Hens Hrun)
    as (en & fo & ed & fd & p3 & Hans & Hed & Hfd & Hinit & Hres).
  apply Hkeep in Hinit. rewrite <- Hinit in Hres.
  apply results_float_arrays in Hres as (Hs & Hc & Hf & He).
  eexists _, _, _, en, fo. split_and!; try done; cbn [shape data].
  - apply broadcast_to_length in Hed. cbn in Hed. lia.
  - apply broadcast_to_length in Hfd. cbn in Hfd. lia.
Qed.

(** C6.  When the kernel answers with one energy per configuration and one
    force block per configuration (arrays of the ensemble's own shapes),
    then after [compute_ensemble] the stored energy [i] and the stored
    force block [i] are the kernel's energy [i] and force block [i], for
    every [i]; and the kernel was called on the ensemble's [xats]. *)
Theorem compute_ensemble_index_aligned base g args kwargs n na s s' E F :
  ensemble_of n na (py s) = true ->
  keeps_results base ->
  kernel_answer g (py s) = Some (RArr (OFloat E), RArr (OFloat F)) ->
  has_shape [n] E = true ->
  has_shape [n; na; 3] F = true ->
  compute_ensemble base g args kwargs s = (Val tt, s') ->
  exists e f x,
    float_array_at (py s') "energies" = Some e /\
    float_array_at (py s') "forces" = Some f /\
    argument_of (py s) "xats" = Some x /\
    CallKernel x ∈ trace s' /\
    forall i, i < n -> data e !! i = data E !! i /\ row i f = row i F.
Proof.
  intros Hens Hkeep Hans [HsE HlE]%has_shape_spec [HsF HlF]%has_shape_spec Hrun.
  destruct (compute_ensemble_stores _ _ _ _ _ _ _ _ Hens Hrun)
    as (en & fo & ed & fd & p3 & Hans' & Hed & Hfd & Hinit & Hres).
  apply compute_ensemble_returns in Hrun
    as (x & _ & _ & _ & _ & _ & _ & _ & _ & _ & _ & _ & Hx & _ & _ & _ & _ & _ & _ & _ & _ & _ & _ & _ & Htr).
  rewrite Hans in Hans'. injection Hans' as <- <-.
  cbn [as_float] in Hed, Hfd.
  rewrite <- HsE, broadcast_to_same in Hed by (unfold consistent; by rewrite HsE).
  rewrite <- HsF, broadcast_to_same in Hfd by (unfold consistent; by rewrite HsF).
  injection Hed as <-. injection Hfd as <-.
  apply Hkeep in Hinit. rewrite <- Hinit in Hres.
  apply results_float_arrays in Hres as (_ & _ & Hf & He).
  eexists _, _, x. split_and!; try done.
  - rewrite Htr. set_solver.
  - intros i _. split; [done|]. destruct F as [shF dF]. cbn in *. by subst.
Qed.

(** There is no availability flag to consult: [__JULIA_EXT__] is never
    read.  What stops a call is the lookup itself.  When
    [julia.Main.compute_ensemble_py] does not resolve (the name [julia] is
    unbound, the package has no [Main], or [Main] has no such function),
    every call of [compute_ensemble], directly or through
    [get_energy_forces], raises the lookup error, and no array of the
    ensemble has been written. *)
Theorem compute_ensemble_without_bridge base g args kwargs s e :
  load_kernel g = inl e ->
  exists gone,
    compute_ensemble base g args kwargs s = (Exc e, gone) /\
    get_energy_forces base g args kwargs s = (Exc e, gone) /\
    (e = NameError "julia" \/ e = AttributeError "Main" \/
     e = AttributeError "compute_ensemble_py") /\
    heap (py gone) = heap (py s) /\
    array_at (py gone) "energies" = array_at (py s) "energies" /\
    array_at (py gone) "forces" = array_at (py s) "forces".
Proof.
  intros Hk.
  exists (MState (PyState (<["has_stress" := VBool false]> (attrs (py s))) (heap (py s)))
                 (trace s ++ [SetAttr "has_stress" (VBool false)])).
  split_and!; [| | |done| |].
  - by apply compute_ensemble_no_kernel.
  - by apply compute_ensemble_no_kernel.
  - unfold load_kernel in Hk.
    destruct (julia g) as [pkg|]; [|injection Hk as <-; auto].
    destruct (Main pkg) as [m|]; [|injection Hk as <-; auto].
    destruct (compute_ensemble_py m); [discriminate|injection Hk as <-; auto].
  - unfold array_at. cbn. by rewrite lookup_insert_ne.
  - unfold array_at. cbn. by rewrite lookup_insert_ne.
Qed.


(** C4, as the code has it.  A run of [compute_ensemble] that returns has
    done this, in this order: set [has_stress] to [False]; called the
    kernel on the ensemble's [xats]; set all of [force_computed]; copied
    the forces; copied the energies; called [init].  The three arrays were
    written in place: [init] receives the attribute dictionary of the
    start with [has_stress] rebound and nothing else. *)
Theorem compute_ensemble_order base g args kwargs s s' :
  compute_ensemble base g args kwargs s = (Val tt, s') ->
  exists x en fo p,
    argument_of (py s) "xats" = Some x /\
    kernel_answer g (py s) = Some (en, fo) /\
    trace s' = trace s ++ [SetAttr "has_stress" (VBool false); CallKernel x;
                           SetItem "force_computed"; SetItem "forces";
                           SetItem "energies"; CallInit] /\
    attrs p = <["has_stress" := VBool false]> (attrs (py s)) /\
    init base p = (Val tt, py s').
Proof.
  intros Hrun.
  apply compute_ensemble_returns in Hrun
    as (x & en & fo & lc & oc & oc' & lf & of_ & of' & le & oe & oe'
        & Hx & Hans & _ & _ & _ & _ & _ & _ & _ & _ & _ & Hinit & Htr).
  exists x, en, fo. eexists. split_and!; [done..| |exact Hinit]. done.
Qed.

(** C5.  [get_energy_forces], whatever arguments it is given, does what
    [compute_ensemble] does, whatever arguments that is given: same result
    and same final state. *)
Theorem get_energy_forces_forwards base g argd kwargs args kwargs' s :
  get_energy_forces base g argd kwargs s = compute_ensemble base g args kwargs' s.
Proof. reflexivity. Qed.

(** C7, as the code has it.  The statements of [compute_ensemble], and so
    of [get_energy_forces], rebind [has_stress] and write into the arrays
    behind [force_computed], [forces] and [energies]; every other
    attribute and every other array is as it was when the call ends by an
    exception of its own, and as it was when [init] is entered otherwise:
    from there on the ensemble is what the host's [init] makes of it. *)
Theorem adapter_touches_only_results base g args kwargs s :
  (touches_only_results (py s) (py (snd (compute_ensemble base g args kwargs s))) \/
   exists p, touches_only_results (py s) p /\
             init base p = (fst (compute_ensemble base g args kwargs s),
                            py (snd (compute_ensemble base g args kwargs s)))) /\
  (touches_only_results (py s) (py (snd (get_energy_forces base g args kwargs s))) \/
   exists p, touches_only_results (py s) p /\
             init base p = (fst (get_energy_forces base g args kwargs s),
                            py (snd (get_energy_forces base g args kwargs s)))).
Proof.
  unfold get_energy_forces.
  split.
  - destruct (compute_ensemble base g args kwargs s) as [r s'] eqn:Hrun.
    by apply compute_ensemble_confined in Hrun.
  - destruct (compute_ensemble base g [] [] s) as [r s'] eqn:Hrun.
    by apply compute_ensemble_confined in Hrun.
Qed.

(** C8.  An exception raised by the kernel call leaves [compute_ensemble]
    (and [get_energy_forces]) as it is: the same exception, after exactly
    one call of the kernel, with no array written. *)
Theorem kernel_failure_propagates base g args kwargs s k x e :
  load_kernel g = inr k ->
  argument_of (py s) "xats" = Some x ->
  k x = Exc e ->
  compute_ensemble base g args kwargs s = (Exc e, at_kernel_call s x) /\
  get_energy_forces base g args kwargs s = (Exc e, at_kernel_call s x) /\
  heap (py (at_kernel_call s x)) = heap (py s) /\
  trace (at_kernel_call s x) = trace s ++ [SetAttr "has_stress" (VBool false); CallKernel x].
Proof.
  intros Hk Hx He. split_and!; [|  |done|done].
  - by eapply compute_ensemble_kernel_raises.
  - by eapply compute_ensemble_kernel_raises.
Qed.

(** C10, as the code has it.  [compute_ensemble] is not atomic.  On an
    ensemble of the host's layout: when the kernel call raises,
    [has_stress] is already [False] and nothing else has changed; when the
    copy of the forces raises, moreover every flag of [force_computed] is
    [True] while forces and energies are the old ones; when the copy of
    the energies raises, the flags are [True], the force array already
    holds the kernel's forces, and only the energies are the old ones. *)
Theorem compute_ensemble_not_atomic base g args kwargs n na s k x :
  ensemble_of n na (py s) = true ->
  load_kernel g = inr k ->
  argument_of (py s) "xats" = Some x ->
  (forall e, k x = Exc e ->
     fst (compute_ensemble base g args kwargs s) = Exc e /\
     results (py (snd (compute_ensemble base g args kwargs s))) =
       (Some (VBool false), array_at (py s) "force_computed",
        array_at (py s) "forces", array_at (py s) "energies")) /\
  (forall r en fo, k x = Val r -> unpack2 r = inr (en, fo) ->
     broadcast_to [n; na; 3] (as_float fo) = None ->
     fst (compute_ensemble base g args kwargs s) = Exc ValueError /\
     results (py (snd (compute_ensemble base g args kwargs s))) =
       (Some (VBool false), Some (OBool (NdArray [n] (replicate n true))),
        array_at (py s) "forces", array_at (py s) "energies")) /\
  (forall r en fo fd, k x = Val r -> unpack2 r = inr (en, fo) ->
     broadcast_to [n; na; 3] (as_float fo) = Some fd ->
     broadcast_to [n] (as_float en) = None ->
     fst (compute_ensemble base g args kwargs s) = Exc ValueError /\
     results (py (snd (compute_ensemble base g args kwargs s))) =
       (Some (VBool false), Some (OBool (NdArray [n] (replicate n true))),
        Some (OFloat (NdArray [n; na; 3] fd)), array_at (py s) "energies")).
Proof.
  intros Hens Hk Hx.
  apply ensemble_of_arrays in Hens
    as (lc & lf & le & c & f & e0 & Hac & Hhc & Haf & Hhf & Hae & Hhe & Hsc & Hsf & Hse & Hcf & Hce & Hfe).
  assert (Hflags := store_flags c n Hsc).
  split_and!.
  - intros e He. erewrite compute_ensemble_kernel_raises by done.
    split; [done|]. unfold results, array_at. cbn.
    by rewrite lookup_insert_eq, !lookup_insert_ne.
  - intros r en fo Hr Hu Hfo.
    erewrite compute_ensemble_kernel_returns by done.
    rewrite bind_run.
    erewrite setitem_stores; [|by cbn; rewrite lookup_insert_ne|done|done].
    rewrite bind_run.
    erewrite setitem_refused;
      [|by cbn; rewrite lookup_insert_ne|by cbn; rewrite lookup_insert_ne
       |apply store_float_refused; [rewrite Hsf; cbn; lia | by rewrite Hsf]].
    split; [done|]. unfold results, array_at. cbn.
    rewrite lookup_insert_eq, !lookup_insert_ne by done.
    rewrite Hac, Haf, Hae. by rewrite lookup_insert_eq, !lookup_insert_ne.
  - intros r en fo fd Hr Hu Hfo Hen.
    erewrite compute_ensemble_kernel_returns by done.
    rewrite bind_run.
    erewrite setitem_stores; [|by cbn; rewrite lookup_insert_ne|done|done].
    rewrite bind_run.
    erewrite setitem_stores;
      [|by cbn; rewrite lookup_insert_ne|by cbn; rewrite lookup_insert_ne
       |apply store_float_ok; [rewrite Hsf; cbn; lia | by rewrite Hsf]].
    rewrite bind_run.
    erewrite setitem_refused;
      [|by cbn; rewrite lookup_insert_ne|by cbn; rewrite !lookup_insert_ne
       |apply store_float_refused; [rewrite Hse; cbn; lia | by rewrite Hse]].
    split; [done|]. unfold results, array_at. cbn.
    rewrite lookup_insert_eq, !lookup_insert_ne by done.
    rewrite Hac, Haf, Hae.
    rewrite lookup_insert_eq.
    rewrite (lookup_insert_ne _ lf lc), lookup_insert_eq by done.
    rewrite !lookup_insert_ne by done. by rewrite Hsf.
Qed.
End AdapterFacts.

(** * Facts about the import *)

Module LoaderFacts.
Import Loader.

Lemma layout_rejected : check_layout [0] false module_lines = Some (7, UnexpectedIndent).
Proof. reflexivity. Qed.

(** Line 23 is narrower than every block open at that point except the
    module's own, and as wide as none. *)
Lemma outer_except_unmatched : dedent [11; 7; 4; 0] 3 = None.
Proof. reflexivity. Qed.

(** With the library imports of lines 1-3 succeeding, the bridge is loaded
    in [after_imports]. *)
Lemma toplevel_reaches_bridge w :
  importing w "cellconstructor" = None -> importing w "cellconstructor.Phonons" = None ->
  importing w "numpy" = None -> importing w "sscha" = None ->
  importing w "sscha.Ensemble" = None ->
  toplevel w fresh_module = (load_bridge w;; class_HeliumEnsemble) after_imports.
Proof.
  intros H1 H2 H3 H4 H5. unfold toplevel, import_, mbind, L_bind, bind, of_option.
  rewrite H1. cbn. rewrite H2. cbn. rewrite H3. cbn. rewrite H4. cbn. rewrite H5. reflexivity.
Qed.

(** Every way through lines 5-24 ends in an exception. *)
Lemma load_bridge_raises w :
  exists e st,
    load_bridge w after_imports = (Exc e, st) /\
    warned st = [] /\ included st = 0 /\ bound "__JULIA_EXT__" (names st) = false /\
    (e = NameError "warnings" \/
     (is_Exception e = false /\ (importing w "julia" = Some e \/ install w = Some e))).
Proof.
  unfold load_bridge, try_except, import_, from_julia_api_import_Julia, assign_jl,
    import_julia_Main, include_potential, julia_install, set_JULIA_EXT, warn,
    mbind, L_bind, bind, of_option.
  destruct (importing w "julia") as [e1|] eqn:H1; cbn.
  { destruct (is_Exception e1) eqn:He1; cbn; eauto 12. }
  destruct (importing w "julia.api") as [e2|] eqn:H2; cbn.
  { destruct (install w) as [e5|] eqn:H5; cbn; [destruct (is_Exception e5) eqn:He5|]; cbn; eauto 12. }
  destruct (start_julia w) as [e3|] eqn:H3; cbn.
  { destruct (install w) as [e5|] eqn:H5; cbn; [destruct (is_Exception e5) eqn:He5|]; cbn; eauto 12. }
  destruct (importing w "julia.Main") as [e4|] eqn:H4; cbn.
  { destruct (install w) as [e5|] eqn:H5; cbn; [destruct (is_Exception e5) eqn:He5|]; cbn; eauto 12. }
  destruct (install w) as [e5|] eqn:H5; cbn; [destruct (is_Exception e5) eqn:He5|]; cbn; eauto 12.
Qed.

Lemma toplevel_raises w :
  exists e, fst (toplevel w fresh_module) = Exc e /\ warned (snd (toplevel w fresh_module)) = [].
Proof.
  destruct (importing w "cellconstructor") as [e|] eqn:H1.
  { exists e. unfold toplevel, import_, mbind, L_bind, bind, of_option. by rewrite H1. }
  destruct (importing w "cellconstructor.Phonons") as [e|] eqn:H2.
  { exists e. unfold toplevel, import_, mbind, L_bind, bind, of_option. rewrite H1. cbn. by rewrite H2. }
  destruct (importing w "numpy") as [e|] eqn:H3.
  { exists e. unfold toplevel, import_, mbind, L_bind, bind, of_option.
    rewrite H1. cbn. rewrite H2. cbn. by rewrite H3. }
  destruct (importing w "sscha") as [e|] eqn:H4.
  { exists e. unfold toplevel, import_, mbind, L_bind, bind, of_option.
    rewrite H1. cbn. rewrite H2. cbn. rewrite H3. cbn. by rewrite H4. }
  destruct (importing w "sscha.Ensemble") as [e|] eqn:H5.
  { exists e. unfold toplevel, import_, mbind, L_bind, bind, of_option.
    rewrite H1. cbn. rewrite H2. cbn. rewrite H3. cbn. rewrite H4. cbn. by rewrite H5. }
  rewrite toplevel_reaches_bridge by done.
  destruct (load_bridge_raises w) as (e & st & Hrun & Hw & _).
  exists e. unfold mbind, L_bind, bind. by rewrite Hrun.
Qed.

(** Mending the indentation alone would not make the module importable.
    As the file stands, Python refuses its layout at line 7 before running
    anything.  Were the blocks read the way they are nested, every run of
    lines 5-24 would still end in an exception: [NameError] for [warnings],
    raised by the handler that was to warn, or else an interrupt
    ([KeyboardInterrupt], [SystemExit]) out of [import julia] or
    [julia.install()], which no handler here catches. *)
Theorem bridge_load_never_warns w :
  fst (import_module w) = Exc (IndentationError 7) /\
  (exists e st,
     load_bridge w after_imports = (Exc e, st) /\
     warned st = [] /\ included st = 0 /\ bound "__JULIA_EXT__" (names st) = false /\
     (e = NameError "warnings" \/
      (is_Exception e = false /\ (importing w "julia" = Some e \/ install w = Some e)))) /\
  (exists e, fst (toplevel w fresh_module) = Exc e /\
             warned (snd (toplevel w fresh_module)) = []).
Proof.
  split; [reflexivity|]. split; [apply load_bridge_raises | apply toplevel_raises].
Qed.

(** C2, at a machine without pyjulia.  [import julia] raises
    [ImportError]; the handler of line 23 is entered and raises
    [NameError] on [warnings]: no warning is emitted and the import fails.
    (As the file stands it fails before that, on its layout.) *)
Theorem missing_julia_breaks_import :
  fst (toplevel julia_missing fresh_module) = Exc (NameError "warnings") /\
  warned (snd (toplevel julia_missing fresh_module)) = [] /\
  bound "HeliumEnsemble" (names (snd (toplevel julia_missing fresh_module))) = false /\
  fst (import_module julia_missing) = Exc (IndentationError 7).
Proof. repeat split. Qed.

(** C9, as the code has it.  Neither [os] nor [warnings] is bound in the
    module, and the inner [try] of line 7 is indented under the simple
    statement of line 6 (the [except] of line 23 matches no open block
    either).  So in every environment, whether or not the bridge could be
    loaded, importing the module fails with [IndentationError] at line 7
    before any statement or handler has run: no name is bound, no warning is
    emitted and the class is not defined.  The state in which the module is
    imported without its kernel is never reached. *)
Theorem import_is_refused w :
  import_module w = (Exc (IndentationError 7), fresh_module) /\
  check_layout [0] false module_lines = Some (7, UnexpectedIndent) /\
  dedent [11; 7; 4; 0] 3 = None /\
  warned (snd (import_module w)) = [] /\
  bound "os" (names (snd (import_module w))) = false /\
  bound "warnings" (names (snd (import_module w))) = false /\
  bound "julia" (names (snd (import_module w))) = false /\
  bound "__JULIA_EXT__" (names (snd (import_module w))) = false /\
  bound "HeliumEnsemble" (names (snd (import_module w))) = false.
Proof. repeat split. Qed.

(** C9 as written has the handler raise [NameError].  On a machine without
    pyjulia, where the bridge cannot load, the import ends in
    [IndentationError]: no [NameError] for [warnings] or [os] is raised,
    because no statement runs, not even the imports of lines 1-3. *)
Lemma no_handler_runs :
  fst (import_module julia_missing) = Exc (IndentationError 7) /\
  fst (import_module julia_missing) <> Exc (NameError "warnings") /\
  fst (import_module julia_missing) <> Exc (NameError "os") /\
  names (snd (import_module julia_missing)) = names fresh_module /\
  bound "CC" (names (snd (import_module julia_missing))) = false.
Proof. repeat split; discriminate. Qed.

(** Under the nested reading, an interrupt during [julia.install()] would
    pass through both handlers. *)
Example interrupted_install :
  fst (toplevel install_interrupted fresh_module) = Exc KeyboardInterrupt.
Proof. reflexivity. Qed.

(** Under the nested reading, even where every import and every call
    succeeds, the include would never be reached. *)
Example all_fine_still_fails :
  fst (toplevel all_fine fresh_module) = Exc (NameError "warnings") /\
  included (snd (toplevel all_fine fresh_module)) = 0.
Proof. split; reflexivity. Qed.
End LoaderFacts.

(** * The claims on the sample ensemble *)

Module Runs.
Import Sample.

(** An [init] that changes nothing keeps the results. *)
Lemma quiet_base_keeps_results : keeps_results quiet_base.
Proof. intros p p' H. injection H as <-. reflexivity. Defined.

(** C1 on the sample ensemble, with the aligned kernel. *)
Lemma compute_ensemble_populates_witness :
  exists e f c en fo,
    float_array_at (py (snd (compute_ensemble quiet_base (with_kernel aligned_kernel) [] [] start)))
      "energies" = Some e /\
    shape e = [2] /\ length (data e) = 2 /\
    float_array_at (py (snd (compute_ensemble quiet_base (with_kernel aligned_kernel) [] [] start)))
      "forces" = Some f /\
    shape f = [2; 1; 3] /\ length (data f) = 2 * (1 * 3) /\
    kernel_answer (with_kernel aligned_kernel) ensemble = Some (en, fo) /\
    broadcast_to [2] (as_float en) = Some (data e) /\
    broadcast_to [2; 1; 3] (as_float fo) = Some (data f) /\
    bool_array_at (py (snd (compute_ensemble quiet_base (with_kernel aligned_kernel) [] [] start)))
      "force_computed" = Some c /\
    shape c = [2] /\ data c = replicate 2 true /\
    attrs (py (snd (compute_ensemble quiet_base (with_kernel aligned_kernel) [] [] start)))
      !! "has_stress" = Some (VBool false).
Proof.
  apply (compute_ensemble_populates quiet_base (with_kernel aligned_kernel) [] [] 2 1 start).
  - vm_compute. reflexivity.
  - exact quiet_base_keeps_results.
  - vm_compute. reflexivity.
Defined.

(** C6 on the sample ensemble, with the aligned kernel. *)
Lemma compute_ensemble_index_aligned_witness :
  exists e f x,
    float_array_at (py (snd (compute_ensemble quiet_base (with_kernel aligned_kernel) [] [] start)))
      "energies" = Some e /\
    float_array_at (py (snd (compute_ensemble quiet_base (with_kernel aligned_kernel) [] [] start)))
      "forces" = Some f /\
    argument_of ensemble "xats" = Some x /\
    CallKernel x ∈ trace (snd (compute_ensemble quiet_base (with_kernel aligned_kernel) [] [] start)) /\
    forall i, i < 2 ->
      data e !! i = data kernel_energies !! i /\ row i f = row i kernel_forces.
Proof.
  apply (compute_ensemble_index_aligned quiet_base (with_kernel aligned_kernel) [] [] 2 1 start).
  - vm_compute. reflexivity.
  - exact quiet_base_keeps_results.
  - vm_compute. reflexivity.
  - vm_compute. reflexivity.
  - vm_compute. reflexivity.
  - vm_compute. reflexivity.
Defined.

(** The lookup failure on the sample ensemble, where [import julia] never
    bound the name. *)
Lemma compute_ensemble_without_bridge_witness :
  exists gone,
    compute_ensemble quiet_base no_julia [] [] start = (Exc (NameError "julia"), gone) /\
    get_energy_forces quiet_base no_julia [] [] start = (Exc (NameError "julia"), gone) /\
    (NameError "julia" = NameError "julia" \/ NameError "julia" = AttributeError "Main" \/
     NameError "julia" = AttributeError "compute_ensemble_py") /\
    heap (py gone) = heap ensemble /\
    array_at (py gone) "energies" = array_at ensemble "energies" /\
    array_at (py gone) "forces" = array_at ensemble "forces".
Proof.
  apply (compute_ensemble_without_bridge quiet_base no_julia [] [] start).
  reflexivity.
Defined.

(** C4 (as the code has it) on the sample ensemble. *)
Lemma compute_ensemble_order_witness :
  exists x en fo p,
    argument_of ensemble "xats" = Some x /\
    kernel_answer (with_kernel aligned_kernel) ensemble = Some (en, fo) /\
    trace (snd (compute_ensemble quiet_base (with_kernel aligned_kernel) [] [] start)) =
      [] ++ [SetAttr "has_stress" (VBool false); CallKernel x;
             SetItem "force_computed"; SetItem "forces"; SetItem "energies"; CallInit] /\
    attrs p = <["has_stress" := VBool false]> (attrs ensemble) /\
    init quiet_base p =
      (Val tt, py (snd (compute_ensemble quiet_base (with_kernel aligned_kernel) [] [] start))).
Proof.
  apply (compute_ensemble_order quiet_base (with_kernel aligned_kernel) [] [] start).
  vm_compute. reflexivity.
Defined.

(** C8 on the sample ensemble, with a kernel that raises. *)
Lemma kernel_failure_propagates_witness :
  compute_ensemble quiet_base (with_kernel failing_kernel) [] [] start =
    (Exc (JuliaError 1), at_kernel_call start (AArr (OFloat (NdArray [2; 1; 3] [1; 2; 3; 4; 5; 6]%Z)))) /\
  get_energy_forces quiet_base (with_kernel failing_kernel) [] [] start =
    (Exc (JuliaError 1), at_kernel_call start (AArr (OFloat (NdArray [2; 1; 3] [1; 2; 3; 4; 5; 6]%Z)))) /\
  heap (py (at_kernel_call start (AArr (OFloat (NdArray [2; 1; 3] [1; 2; 3; 4; 5; 6]%Z))))) =
    heap ensemble /\
  trace (at_kernel_call start (AArr (OFloat (NdArray [2; 1; 3] [1; 2; 3; 4; 5; 6]%Z)))) =
    [] ++ [SetAttr "has_stress" (VBool false);
           CallKernel (AArr (OFloat (NdArray [2; 1; 3] [1; 2; 3; 4; 5; 6]%Z)))].
Proof.
  apply (kernel_failure_propagates quiet_base (with_kernel failing_kernel) [] [] start
           failing_kernel).
  - reflexivity.
  - vm_compute. reflexivity.
  - reflexivity.
Defined.

(** C10 (as the code has it) on the sample ensemble, in the case of
    energies that do not fit. *)
Lemma compute_ensemble_not_atomic_witness :
  fst (compute_ensemble quiet_base (with_kernel short_energies_kernel) [] [] start) = Exc ValueError /\
  results (py (snd (compute_ensemble quiet_base (with_kernel short_energies_kernel) [] [] start))) =
    (Some (VBool false), Some (OBool (NdArray [2] (replicate 2 true))),
     Some (OFloat (NdArray [2; 1; 3] [11; 12; 13; 21; 22; 23]%Z)),
     array_at ensemble "energies").
Proof.
  refine (proj2 (proj2 (compute_ensemble_not_atomic quiet_base
            (with_kernel short_energies_kernel) [] [] 2 1 start short_energies_kernel
            (AArr (OFloat (NdArray [2; 1; 3] [1; 2; 3; 4; 5; 6]%Z))) _ _ _))
            _ (RArr (OFloat (NdArray [3] [-1; -2; -3]%Z))) (RArr (OFloat kernel_forces))
            _ _ _ _ _).
  - vm_compute. reflexivity.
  - reflexivity.
  - vm_compute. reflexivity.
  - reflexivity.
  - reflexivity.
  - vm_compute. reflexivity.
  - vm_compute. reflexivity.
Defined.

(** ** The other ways the bridge can be missing *)

Example without_Main :
  fst (compute_ensemble quiet_base no_Main [] [] start) = Exc (AttributeError "Main").
Proof. reflexivity. Qed.

Example without_function :
  fst (compute_ensemble quiet_base no_function [] [] start) =
    Exc (AttributeError "compute_ensemble_py").
Proof. reflexivity. Qed.

(** ** Where the claims as written fail *)

(** C4 as written has the copies before the flagging, and has the kernel
    answer aligned.  On the sample ensemble the run returns with the flags
    set first, where the order of the specification has them set last; when
    the forces do not fit, the code leaves every flag [True] where that order
    would have left them [False]; and a run returns as well when the kernel
    answers one energy and one force block for the two configurations. *)
Lemma flags_are_set_before_the_copies :
  fst (compute_ensemble quiet_base (with_kernel aligned_kernel) [] [] start) = Val tt /\
  copies_precede_flagging
    (trace (snd (compute_ensemble quiet_base (with_kernel aligned_kernel) [] [] start))) = false /\
  copies_precede_flagging
    (trace (snd (compute_ensemble_as_specified quiet_base (with_kernel aligned_kernel) [] [] start)))
    = true /\
  bool_array_at (py (snd (compute_ensemble quiet_base (with_kernel short_forces_kernel) [] [] start)))
    "force_computed" = Some (NdArray [2] [true; true]) /\
  bool_array_at
    (py (snd (compute_ensemble_as_specified quiet_base (with_kernel short_forces_kernel) [] [] start)))
    "force_computed" = Some (NdArray [2] [false; false]) /\
  fst (compute_ensemble quiet_base (with_kernel uniform_kernel) [] [] start) = Val tt /\
  float_array_at (py (snd (compute_ensemble quiet_base (with_kernel uniform_kernel) [] [] start)))
    "energies" = Some (NdArray [2] [-5; -5]%Z).
Proof. vm_compute. repeat split. Qed.

(** C7 as written has every field but the two arrays and the flags
    unchanged.  The sample ensemble announces stresses; after the call,
    direct or forwarded, it does not.  And what [init] does to the other
    attributes is not the adapter's to promise: a host that resets its
    weights rebinds [rho]. *)
Lemma has_stress_is_rebound :
  fst (compute_ensemble quiet_base (with_kernel aligned_kernel) [] [] start) = Val tt /\
  attrs (py (snd (compute_ensemble quiet_base (with_kernel aligned_kernel) [] [] start)))
    !! "has_stress" <> attrs ensemble !! "has_stress" /\
  attrs (py (snd (get_energy_forces quiet_base (with_kernel aligned_kernel) [] [] start)))
    !! "has_stress" <> attrs ensemble !! "has_stress" /\
  ("has_stress" ∉ written) /\
  attrs (py (snd (compute_ensemble weights_base (with_kernel aligned_kernel) [] [] start)))
    !! "rho" <> attrs ensemble !! "rho".
Proof.
  split_and!.
  - vm_compute. reflexivity.
  - vm_compute. discriminate.
  - vm_compute. discriminate.
  - unfold written. intros H. repeat (apply elem_of_cons in H as [H|H]; [discriminate|]).
    by apply elem_of_nil in H.
  - vm_compute. discriminate.
Qed.

(** C10 as written has forces and energies both old after any failed
    copy.  When it is the energies that do not fit, the forces have been
    copied already. *)
Lemma failed_energy_copy_keeps_new_forces :
  fst (compute_ensemble quiet_base (with_kernel short_energies_kernel) [] [] start) = Exc ValueError /\
  bool_array_at (py (snd (compute_ensemble quiet_base (with_kernel short_energies_kernel) [] [] start)))
    "force_computed" = Some (NdArray [2] [true; true]) /\
  float_array_at (py (snd (compute_ensemble quiet_base (with_kernel short_energies_kernel) [] [] start)))
    "energies" = float_array_at ensemble "energies" /\
  float_array_at (py (snd (compute_ensemble quiet_base (with_kernel short_energies_kernel) [] [] start)))
    "forces" = Some kernel_forces /\
  float_array_at (py (snd (compute_ensemble quiet_base (with_kernel short_energies_kernel) [] [] start)))
    "forces" <> float_array_at ensemble "forces".
Proof.
  split_and!.
  - vm_compute. reflexivity.
  - vm_compute. reflexivity.
  - vm_compute. reflexivity.
  - vm_compute. reflexivity.
  - vm_compute. discriminate.
Qed.

End Runs.

(** * Further facts about the adapter *)

Section FurtherFacts.
Context {scalar : Type} `{!Casts scalar}.
Implicit Types (s : mstate scalar) (p : pystate scalar) (g : globals scalar)
  (base : Ensemble scalar) (k : kernel scalar).

Lemma call_init_ends base s : call_init base s = ends_in_init base (py s) (trace s).
Proof. unfold call_init, ends_in_init. by destruct (init base (py s)). Qed.

(** When the kernel's answer can be broadcast to the ensemble's arrays, every
    statement of [compute_ensemble] before [self.init()] succeeds. *)
Lemma compute_ensemble_enters_init base g args kwargs n na s k x r en fo fd ed :
  ensemble_of n na (py s) = true ->
  load_kernel g = inr k ->
  argument_of (py s) "xats" = Some x ->
  k x = Val r ->
  unpack2 r = inr (en, fo) ->
  broadcast_to [n; na; 3] (as_float fo) = Some fd ->
  broadcast_to [n] (as_float en) = Some ed ->
  exists lc lf le : nat,
    attrs (py s) !! "force_computed" = Some (VRef lc) /\
    attrs (py s) !! "forces" = Some (VRef lf) /\
    attrs (py s) !! "energies" = Some (VRef le) /\
    lc <> lf /\ lc <> le /\ lf <> le /\
    compute_ensemble base g args kwargs s =
      ends_in_init base (handed_to_init (py s) lc lf le n na fd ed)
        (trace s ++ [SetAttr "has_stress" (VBool false); CallKernel x;
                     SetItem "force_computed"; SetItem "forces"; SetItem "energies"]).
Proof.
  intros Hens Hk Hx Hr Hu Hfo Hen.
  apply ensemble_of_arrays in Hens
    as (lc & lf & le & c & f & e0 & Hac & Hhc & Haf & Hhf & Hae & Hhe & Hsc & Hsf & Hse & Hcf & Hce & Hfe).
  exists lc, lf, le. split_and!; try done.
  erewrite compute_ensemble_kernel_returns by done.
  rewrite bind_run.
  erewrite setitem_stores; [|by cbn; rewrite lookup_insert_ne|done|by apply store_flags].
  rewrite bind_run.
  erewrite setitem_stores;
    [|by cbn; rewrite lookup_insert_ne|by cbn; rewrite lookup_insert_ne
     |apply store_float_ok; [rewrite Hsf; cbn; lia | by rewrite Hsf]].
  rewrite bind_run.
  erewrite setitem_stores;
    [|by cbn; rewrite lookup_insert_ne|by cbn; rewrite !lookup_insert_ne
     |apply store_float_ok; [rewrite Hse; cbn; lia | by rewrite Hse]].
  rewrite call_init_ends. cbn [py trace attrs heap].
  unfold handed_to_init, at_kernel_call. cbn [py trace attrs heap].
  rewrite Hsf, Hse. by rewrite <- !app_assoc.
Qed.

(** The results in the state handed to [init]. *)
Lemma handed_to_init_results p (lc lf le : nat) n na fd ed :
  attrs p !! "force_computed" = Some (VRef lc) ->
  attrs p !! "forces" = Some (VRef lf) ->
  attrs p !! "energies" = Some (VRef le) ->
  lc <> lf -> lc <> le -> lf <> le ->
  results (handed_to_init p lc lf le n na fd ed) =
    (Some (VBool false), Some (OBool (NdArray [n] (replicate n true))),
     Some (OFloat (NdArray [n; na; 3] fd)), Some (OFloat (NdArray [n] ed))).
Proof.
  intros Hc Hf He Hcf Hce Hfe. unfold results, array_at, handed_to_init. cbn [attrs heap].
  rewrite lookup_insert_eq, !lookup_insert_ne by done. rewrite Hc, Hf, He.
  rewrite lookup_insert_eq.
  rewrite (lookup_insert_ne _ le lf), lookup_insert_eq by done.
  by rewrite (lookup_insert_ne _ le lc), (lookup_insert_ne _ lf lc), lookup_insert_eq.
Qed.

Lemma kernel_answer_Some g p en fo :
  kernel_answer g p = Some (en, fo) ->
  exists k x r,
    load_kernel g = inr k /\ argument_of p "xats" = Some x /\
    k x = Val r /\ unpack2 r = inr (en, fo).
Proof.
  unfold kernel_answer. intros H.
  destruct (load_kernel g) as [|k]; [done|].
  destruct (argument_of p "xats") as [x|]; [|done].
  destruct (k x) as [r|] eqn:Hr; [|done].
  destruct (unpack2 r) as [|ef] eqn:Hu; [done|].
  injection H as ->. eauto 10.
Qed.

(** ** Further properties of [compute_ensemble] *)

(** X1.  When the kernel's answer can be broadcast to the shapes of the
    ensemble's arrays, no statement of [compute_ensemble] raises: the run
    (direct or through [get_energy_forces]) enters [init] after the five
    effects of the body, in a state with [has_stress] off, every flag on and
    the answer broadcast into forces and energies, and ends as [init]
    does. *)
Theorem compute_ensemble_ends_as_init base g args kwargs n na s en fo fd ed :
  ensemble_of n na (py s) = true ->
  kernel_answer g (py s) = Some (en, fo) ->
  broadcast_to [n; na; 3] (as_float fo) = Some fd ->
  broadcast_to [n] (as_float en) = Some ed ->
  exists p x,
    argument_of (py s) "xats" = Some x /\
    compute_ensemble base g args kwargs s =
      ends_in_init base p (trace s ++ [SetAttr "has_stress" (VBool false); CallKernel x;
                                       SetItem "force_computed"; SetItem "forces";
                                       SetItem "energies"]) /\
    get_energy_forces base g args kwargs s =
      ends_in_init base p (trace s ++ [SetAttr "has_stress" (VBool false); CallKernel x;
                                       SetItem "force_computed"; SetItem "forces";
                                       SetItem "energies"]) /\
    results p = (Some (VBool false), Some (OBool (NdArray [n] (replicate n true))),
                 Some (OFloat (NdArray [n; na; 3] fd)), Some (OFloat (NdArray [n] ed))).
Proof.
  intros Hens (k & x & r & Hk & Hx & Hr & Hu)%kernel_answer_Some Hfd Hed.
  destruct (compute_ensemble_enters_init base g args kwargs _ _ _ _ _ _ _ _ _ _
              Hens Hk Hx Hr Hu Hfd Hed)
    as (lc & lf & le & Hc & Hf & He & Hcf & Hce & Hfe & Hrun).
  destruct (compute_ensemble_enters_init base g [] [] _ _ _ _ _ _ _ _ _ _
              Hens Hk Hx Hr Hu Hfd Hed)
    as (lc' & lf' & le' & Hc' & Hf' & He' & _ & _ & _ & Hrun').
  simplify_eq.
  eexists _, x. split_and!; [done|exact Hrun|exact Hrun'|].
  by apply handed_to_init_results.
Qed.

(** X2.  Nothing checks that the kernel answered one energy per
    configuration: on an ensemble of the host's layout, when it answers a
    single number for the energies, together with forces that can be
    broadcast to the force array, the run enters [init] with that number as
    the energy of every configuration. *)
Theorem single_energy_fills_all base g args kwargs n na s e fo fd :
  ensemble_of n na (py s) = true ->
  kernel_answer g (py s) = Some (RFloat e, fo) ->
  broadcast_to [n; na; 3] (as_float fo) = Some fd ->
  exists p t,
    compute_ensemble base g args kwargs s = ends_in_init base p t /\
    float_array_at p "energies" = Some (NdArray [n] (replicate n e)).
Proof.
  intros Hens Hans Hfd.
  destruct (kernel_answer_Some _ _ _ _ Hans) as (k & x & r & Hk & Hx & Hr & Hu).
  assert (Hed : broadcast_to [n] (as_float (RFloat e)) = Some (replicate n e)).
  { cbn [as_float]. rewrite broadcast_to_scalar. cbn. by rewrite Nat.mul_1_r. }
  destruct (compute_ensemble_enters_init base g args kwargs _ _ _ _ _ _ _ _ _ _
              Hens Hk Hx Hr Hu Hfd Hed)
    as (lc & lf & le & Hc & Hf & He & Hcf & Hce & Hfe & Hrun).
  eexists _, _. split; [exact Hrun|].
  pose proof (handed_to_init_results (py s) lc lf le n na fd (replicate n e)
                Hc Hf He Hcf Hce Hfe) as Hres.
  unfold results in Hres. unfold float_array_at.
  injection Hres as _ _ _ ->. done.
Qed.

Lemma ensemble_of_xats n na p :
  ensemble_of n na p = true ->
  exists (lx : nat) x0,
    attrs p !! "xats" = Some (VRef lx) /\ heap p !! lx = Some (OFloat x0) /\
    has_shape [n; na; 3] x0 = true.
Proof.
  unfold ensemble_of. intros H.
  destruct (float_array_at p "xats") as [x0|] eqn:Hx; [|done].
  destruct (float_array_at p "energies") as [e|]; [|done].
  destruct (float_array_at p "forces") as [f|]; [|done].
  destruct (bool_array_at p "force_computed") as [c|]; [|done].
  rewrite !andb_true_iff in H. destruct H as [[[Hsx _] _] _].
  apply float_array_at_Some in Hx as (lx & Hax & Hhx). eauto.
Qed.

(** X3.  The arrays are written in place, so an ensemble whose [forces]
    attribute is bound to the array of [xats] loses its positions: the
    kernel is called on the positions, and when [init] is entered
    [self.xats] holds the forces the kernel answered. *)
Theorem shared_array_is_overwritten base g args kwargs n na s en fo fd ed :
  ensemble_of n na (py s) = true ->
  attrs (py s) !! "xats" = attrs (py s) !! "forces" ->
  kernel_answer g (py s) = Some (en, fo) ->
  broadcast_to [n; na; 3] (as_float fo) = Some fd ->
  broadcast_to [n] (as_float en) = Some ed ->
  exists p t x0,
    float_array_at (py s) "xats" = Some x0 /\
    CallKernel (AArr (OFloat x0)) ∈ t /\
    compute_ensemble base g args kwargs s = ends_in_init base p t /\
    float_array_at p "xats" = Some (NdArray [n; na; 3] fd).
Proof.
  intros Hens Hsame Hans Hfd Hed.
  destruct (kernel_answer_Some _ _ _ _ Hans) as (k & x & r & Hk & Hx & Hr & Hu).
  destruct (ensemble_of_xats _ _ _ Hens) as (lx & x0 & Hax & Hhx & _).
  destruct (compute_ensemble_enters_init base g args kwargs _ _ _ _ _ _ _ _ _ _
              Hens Hk Hx Hr Hu Hfd Hed)
    as (lc & lf & le & Hc & Hf & He & Hcf & Hce & Hfe & Hrun).
  assert (lx = lf) as -> by congruence.
  assert (x = AArr (OFloat x0)) as ->.
  { unfold argument_of in Hx. rewrite Hax in Hx. cbn in Hx. rewrite Hhx in Hx.
    by injection Hx. }
  eexists _, _, x0. split_and!; [|  |exact Hrun|].
  - unfold float_array_at, array_at. by rewrite Hax, Hhx.
  - set_solver.
  - unfold float_array_at, array_at, handed_to_init. cbn [attrs heap].
    rewrite lookup_insert_ne, Hax by done.
    by rewrite lookup_insert_ne, lookup_insert_eq.
Qed.

Lemma handed_to_init_again p (lc lf le : nat) n na fd ed :
  handed_to_init (handed_to_init p lc lf le n na fd ed) lc lf le n na fd ed =
  handed_to_init p lc lf le n na fd ed.
Proof.
  unfold handed_to_init. cbn [attrs heap]. f_equal.
  - apply insert_insert_eq.
  - apply map_eq. intros l.
    destruct (decide (l = le)) as [->|Hle]; [by rewrite !lookup_insert_eq|].
    rewrite !(lookup_insert_ne _ le l) by done.
    destruct (decide (l = lf)) as [->|Hlf]; [by rewrite !lookup_insert_eq|].
    rewrite !(lookup_insert_ne _ lf l) by done.
    destruct (decide (l = lc)) as [->|Hlc]; [by rewrite !lookup_insert_eq|].
    rewrite !(lookup_insert_ne _ lc l) by done.
    by rewrite !lookup_insert_ne.
Qed.

(** X4.  [compute_ensemble] settles: on an ensemble that keeps its positions
    in an array of their own, the state a run hands to [init] is handed to
    [init] unchanged by a further run started in it. *)
Theorem compute_ensemble_settles base g args kwargs n na s en fo fd ed :
  ensemble_of n na (py s) = true ->
  attrs (py s) !! "xats" <> attrs (py s) !! "forces" ->
  kernel_answer g (py s) = Some (en, fo) ->
  broadcast_to [n; na; 3] (as_float fo) = Some fd ->
  broadcast_to [n] (as_float en) = Some ed ->
  exists p t,
    compute_ensemble base g args kwargs s = ends_in_init base p t /\
    forall t0, exists t1,
      compute_ensemble base g args kwargs (MState p t0) = ends_in_init base p t1.
Proof.
  intros Hens Hown Hans Hfd Hed.
  destruct (kernel_answer_Some _ _ _ _ Hans) as (k & x & r & Hk & Hx & Hr & Hu).
  destruct (ensemble_of_xats _ _ _ Hens) as (lx & x0 & Hax & Hhx & Hsx).
  destruct (compute_ensemble_enters_init base g args kwargs _ _ _ _ _ _ _ _ _ _
              Hens Hk Hx Hr Hu Hfd Hed)
    as (lc & lf & le & Hc & Hf & He & Hcf & Hce & Hfe & Hrun).
  destruct (ensemble_of_arrays _ _ _ Hens)
    as (lc' & lf' & le' & c & f & e0 & Hac & Hhc & Haf & Hhf & Hae & Hhe & Hsc & Hsf & Hse & _).
  simplify_eq.
  assert (Hxf : lx <> lf) by (intros ->; congruence).
  assert (Hxc : lx <> lc) by (intros ->; congruence).
  assert (Hxe : lx <> le).
  { intros ->. rewrite Hhx in Hhe. injection Hhe as ->.
    apply has_shape_spec in Hsx as [Hsx _]. congruence. }
  eexists _, _. split; [exact Hrun|]. intros t0.
  set (p := handed_to_init (py s) lc lf le n na fd ed).
  assert (Hres := handed_to_init_results (py s) lc lf le n na fd ed Hc Hf He Hcf Hce Hfe).
  fold p in Hres. unfold results in Hres. injection Hres as _ Hrc Hrf Hre.
  assert (Hpx : float_array_at p "xats" = Some x0).
  { unfold float_array_at, array_at, p, handed_to_init. cbn [attrs heap].
    rewrite lookup_insert_ne, Hax by done. by rewrite !lookup_insert_ne, Hhx. }
  assert (Hens' : ensemble_of n na p = true).
  { unfold ensemble_of. rewrite Hpx. unfold float_array_at, bool_array_at.
    rewrite Hrc, Hrf, Hre, Hsx. cbn [andb].
    rewrite !andb_true_iff, !has_shape_spec. cbn [shape data].
    apply broadcast_to_length in Hfd, Hed.
    split_and!; try done. rewrite length_replicate. cbn. lia. }
  assert (Hx' : argument_of p "xats" = Some x).
  { unfold argument_of in *. unfold p, handed_to_init. cbn [attrs heap].
    rewrite lookup_insert_ne by done. rewrite Hax in *. cbn in *.
    by rewrite !lookup_insert_ne. }
  destruct (compute_ensemble_enters_init base g args kwargs n na (MState p t0) _ _ _ _ _ _ _
              Hens' Hk Hx' Hr Hu Hfd Hed)
    as (lc' & lf' & le' & Hc' & Hf' & He' & _ & _ & _ & Hrun').
  unfold p, handed_to_init in Hc', Hf', He'. cbn [py attrs] in Hc', Hf', He'.
  rewrite lookup_insert_ne in Hc', Hf', He' by done. simplify_eq.
  eexists. rewrite Hrun'. cbn [py]. unfold p. by rewrite handed_to_init_again.
Qed.

(** ** Runs that do not get to [init] *)

(** X5.  Without positions the kernel is not called: when the bridge is
    there but the ensemble has no attribute [xats], the run (direct or
    forwarded) raises [AttributeError] for it, having rebound [has_stress]
    and done nothing else. *)
Theorem missing_positions base g args kwargs s k :
  load_kernel g = inr k ->
  attrs (py s) !! "xats" = None ->
  compute_ensemble base g args kwargs s =
    (Exc (AttributeError "xats"),
     MState (PyState (<["has_stress" := VBool false]> (attrs (py s))) (heap (py s)))
            (trace s ++ [SetAttr "has_stress" (VBool false)])) /\
  get_energy_forces base g args kwargs s =
    (Exc (AttributeError "xats"),
     MState (PyState (<["has_stress" := VBool false]> (attrs (py s))) (heap (py s)))
            (trace s ++ [SetAttr "has_stress" (VBool false)])).
Proof.
  intros Hk Hx.
  assert (forall a kw, compute_ensemble base g a kw s =
    (Exc (AttributeError "xats"),
     MState (PyState (<["has_stress" := VBool false]> (attrs (py s))) (heap (py s)))
            (trace s ++ [SetAttr "has_stress" (VBool false)]))) as Hrun.
  { intros a kw. unfold compute_ensemble. rewrite bind_run. cbn.
    rewrite bind_run, Hk. cbn.
    rewrite bind_run. unfold getattr at 1. cbn. by rewrite lookup_insert_ne, Hx. }
  split; apply Hrun.
Qed.

(** X6.  When the kernel's result is not a pair, the run raises at the
    unpacking, after the kernel call and before any array is touched:
    [ValueError] for a tuple of another length, [TypeError] for [None] or a
    number. *)
Theorem result_that_is_no_pair base g args kwargs s k x r e :
  load_kernel g = inr k ->
  argument_of (py s) "xats" = Some x ->
  k x = Val r ->
  unpack2 r = inl e ->
  compute_ensemble base g args kwargs s = (Exc e, at_kernel_call s x) /\
  heap (py (at_kernel_call s x)) = heap (py s) /\
  (e = ValueError \/ e = TypeError) /\
  (forall vs, r = RTuple vs -> e = ValueError /\ length vs <> 2) /\
  (r = RNone -> e = TypeError).
Proof.
  intros Hk (v & Hv & Hx)%argument_of_xats Hr Hu. split_and!.
  - unfold compute_ensemble. rewrite bind_run. cbn.
    rewrite bind_run, Hk. cbn.
    rewrite bind_run. unfold getattr at 1. cbn. rewrite lookup_insert_ne, Hv by done.
    rewrite bind_run. unfold deref at 1. cbn.
    rewrite (referent_heap (py s)) by done. rewrite Hx.
    rewrite bind_run. unfold call_kernel at 1. cbn. rewrite Hr.
    rewrite bind_run, Hu. cbn. unfold at_kernel_call. by rewrite <- app_assoc.
  - done.
  - unfold unpack2 in Hu. repeat case_match; simplify_eq; auto.
  - intros vs ->. cbn in Hu.
    destruct vs as [|a [|b [|c vs]]]; simplify_eq; cbn; split; (done || lia).
  - intros ->. cbn in Hu. by injection Hu.
Qed.

(** X7.  When [force_computed] is not an array ([None], as before any
    configuration was generated, or a number), the run raises [TypeError]
    after the kernel has been called and answered; no array holds any of
    the answer. *)
Theorem flags_that_are_no_array base g args kwargs s k x r en fo v :
  load_kernel g = inr k ->
  argument_of (py s) "xats" = Some x ->
  k x = Val r ->
  unpack2 r = inr (en, fo) ->
  attrs (py s) !! "force_computed" = Some v ->
  (forall l, v <> VRef l) ->
  compute_ensemble base g args kwargs s = (Exc TypeError, at_kernel_call s x) /\
  heap (py (at_kernel_call s x)) = heap (py s).
Proof.
  intros Hk Hx Hr Hu Hv Hno. split; [|done].
  erewrite compute_ensemble_kernel_returns by done.
  rewrite bind_run. unfold setitem at 1. rewrite bind_run.
  unfold getattr at 1. cbn [py attrs at_kernel_call].
  rewrite lookup_insert_ne, Hv by done.
  unfold write_through. destruct v as [| | |l]; try done. by destruct (Hno l).
Qed.

(** X8.  [self.forces[:, :, :]] needs three axes.  When the forces are kept
    in an array of fewer, the run raises [IndexError] at line 38: the kernel
    has been called and every flag is already [True]. *)
Theorem forces_of_low_rank base g args kwargs s k x r en fo (lc lf : nat) c o :
  load_kernel g = inr k ->
  argument_of (py s) "xats" = Some x ->
  k x = Val r ->
  unpack2 r = inr (en, fo) ->
  attrs (py s) !! "force_computed" = Some (VRef lc) ->
  heap (py s) !! lc = Some (OBool c) ->
  1 <= length (shape c) ->
  attrs (py s) !! "forces" = Some (VRef lf) ->
  heap (py s) !! lf = Some o ->
  length (obj_shape o) < 3 ->
  compute_ensemble base g args kwargs s =
    (Exc IndexError,
     MState (PyState (<["has_stress" := VBool false]> (attrs (py s)))
                     (<[lc := OBool (NdArray (shape c) (replicate (size (shape c)) true))]>
                        (heap (py s))))
            (trace s ++ [SetAttr "has_stress" (VBool false); CallKernel x;
                         SetItem "force_computed"])).
Proof.
  intros Hk Hx Hr Hu Hac Hhc Hrc Haf Hhf Hro.
  erewrite compute_ensemble_kernel_returns by done.
  assert (Hst : store 1 (OBool c) (RBool true : item scalar) =
                inr (OBool (NdArray (shape c) (replicate (size (shape c)) true)))).
  { unfold store. cbn [obj_shape].
    destruct (Nat.ltb_spec (length (shape c)) 1); [lia|].
    cbn [as_bool]. by rewrite broadcast_to_scalar. }
  rewrite bind_run.
  erewrite setitem_stores; [|by cbn; rewrite lookup_insert_ne|done|exact Hst].
  rewrite bind_run.
  assert (exists o', <[lc := OBool (NdArray (shape c) (replicate (size (shape c)) true))]>
                       (heap (py s)) !! lf = Some o' /\ length (obj_shape o') < 3)
    as (o' & Ho' & Hro').
  { destruct (decide (lf = lc)) as [->|Hne].
    - rewrite lookup_insert_eq. eexists. split; [done|]. cbn. by simplify_eq.
    - rewrite lookup_insert_ne by done. eauto. }
  erewrite setitem_refused; [|by cbn; rewrite lookup_insert_ne|exact Ho'|].
  - unfold at_kernel_call. cbn [py attrs heap trace]. by rewrite <- app_assoc.
  - unfold store. by destruct (Nat.ltb_spec (length (obj_shape o')) 3); [|lia].
Qed.

(** ** What every run does, whether it returns or raises *)

Lemma lift_same {A} (x : exn + A) s o s' : lift x s = (o, s') -> s' = s.
Proof. destruct x; by intros [= _ <-]. Qed.

Lemma getattr_same name s (o : outcome (value scalar)) s' :
  getattr name s = (o, s') -> s' = s.
Proof. unfold getattr. destruct (_ !! _); by intros [= _ <-]. Qed.

Lemma deref_same (v : value scalar) s o s' : deref v s = (o, s') -> s' = s.
Proof. unfold deref. destruct (referent _ _); by intros [= _ <-]. Qed.

Lemma setitem_trace name slices (v : item scalar) s o s' :
  setitem name slices v s = (o, s') ->
  (o = Val tt /\ trace s' = trace s ++ [SetItem name]) \/ ((exists e, o = Exc e) /\ s' = s).
Proof.
  unfold setitem. intros H.
  apply bind_cases in H as [(e & H & ->)|(t & s1 & H1 & H2)].
  { apply getattr_same in H. eauto. }
  apply getattr_same in H1 as ->. unfold write_through in H2.
  destruct t as [| | |l]; try (injection H2 as <- <-; eauto).
  destruct (heap (py s) !! l) as [ob|]; [|injection H2 as <- <-; eauto].
  destruct (store slices ob v) as [e|o']; injection H2 as <- <-; eauto.
Qed.

(** X9.  Whatever the ensemble, the bridge, the kernel and the host's
    [init] do, and whether the run returns or raises, its effects are an
    initial part of one fixed sequence: [has_stress] is rebound first; then
    the kernel is called, once, on [self.xats]; then come the flags, the
    forces and the energies; [init] is called last, once, and only after
    all three writes. *)
Theorem effects_are_an_initial_part base g args kwargs s :
  exists evs,
    trace (snd (compute_ensemble base g args kwargs s)) = trace s ++ evs /\
    [SetAttr "has_stress" (VBool false)] `prefix_of` evs /\
    evs `prefix_of` steps (argument_of (py s) "xats").
Proof.
  destruct (compute_ensemble base g args kwargs s) as [o s'] eqn:Hrun. cbn [snd].
  unfold compute_ensemble in Hrun.
  apply bind_cases in Hrun as [(e & H & _)|([] & s1 & H1 & Hrun)]; [discriminate H|].
  injection H1 as <-.
  assert (Hfirst : forall rest, [SetAttr "has_stress" (VBool false) : event scalar]
                     `prefix_of` SetAttr "has_stress" (VBool false) :: rest)
    by (intros rest; by exists rest).
  assert (Hstop : exists evs : list (event scalar),
             trace s ++ [SetAttr "has_stress" (VBool false)] = trace s ++ evs /\
             [SetAttr "has_stress" (VBool false)] `prefix_of` evs /\
             evs `prefix_of` steps (argument_of (py s) "xats")).
  { eexists. split; [done|]. split; [done|]. unfold steps. apply Hfirst. }
  apply bind_cases in Hrun as [(e & H & _)|(k & s1 & H1 & Hrun)].
  { apply lift_same in H as ->. exact Hstop. }
  apply lift_same in H1 as ->.
  apply bind_cases in Hrun as [(e & H & _)|(xv & s1 & H1 & Hrun)].
  { apply getattr_same in H as ->. exact Hstop. }
  apply getattr_Val in H1 as [Hxv ->]. cbn in Hxv. rewrite lookup_insert_ne in Hxv by done.
  apply bind_cases in Hrun as [(e & H & _)|(x & s1 & H1 & Hrun)].
  { apply deref_same in H as ->. exact Hstop. }
  apply deref_Val in H1 as [Hx ->]. cbn [py] in Hx.
  rewrite (referent_heap (py s)) in Hx by done.
  assert (Harg : argument_of (py s) "xats" = Some x).
  { unfold argument_of. by rewrite Hxv. }
  rewrite Harg. unfold steps. clear Hstop.
  apply bind_cases in Hrun as [(e & H & _)|(r & s1 & H1 & Hrun)].
  { injection H as _ <-. cbn [trace]. rewrite <- app_assoc. eexists. split; [done|].
    split; [apply Hfirst|]. by eexists. }
  injection H1 as _ <-.
  apply bind_cases in Hrun as [(e & H & _)|([en fo] & s1 & H1 & Hrun)].
  { apply lift_same in H as ->. cbn [trace]. rewrite <- app_assoc. eexists. split; [done|].
    split; [apply Hfirst|]. by eexists. }
  apply lift_same in H1 as ->.
  apply bind_cases in Hrun as [(e & H & _)|(u1 & s1 & H1 & Hrun)].
  { apply setitem_trace in H as [[_ ->]|[_ ->]]; cbn [trace]; rewrite <- ?app_assoc;
      (eexists; split; [done|]; split; [apply Hfirst|]; by eexists). }
  apply setitem_trace in H1 as [[_ Ht1]|[[e He] _]]; [|discriminate He]. cbn [trace] in Ht1.
  apply bind_cases in Hrun as [(e & H & _)|(u2 & s2 & H2 & Hrun)].
  { apply setitem_trace in H as [[_ ->]|[_ ->]]; rewrite Ht1; rewrite <- ?app_assoc;
      (eexists; split; [done|]; split; [apply Hfirst|]; by eexists). }
  apply setitem_trace in H2 as [[_ Ht2]|[[e He] _]]; [|discriminate He]. rewrite Ht1 in Ht2.
  apply bind_cases in Hrun as [(e & H & _)|(u3 & s3 & H3 & Hrun)].
  { apply setitem_trace in H as [[_ ->]|[_ ->]]; rewrite Ht2; rewrite <- ?app_assoc;
      (eexists; split; [done|]; split; [apply Hfirst|]; by eexists). }
  apply setitem_trace in H3 as [[_ Ht3]|[[e He] _]]; [|discriminate He]. rewrite Ht2 in Ht3.
  apply call_init_run in Hrun as (p' & _ & ->). cbn [trace]. rewrite Ht3, <- !app_assoc.
  eexists. split; [done|]. split; [apply Hfirst|]. by eexists.
Qed.

(** ** The arrays keep their layout *)

Lemma same_kind_refl (o : obj scalar) : same_kind o o.
Proof. by destruct o. Qed.

Lemma same_kind_trans (o1 o2 o3 : obj scalar) :
  same_kind o1 o2 -> same_kind o2 o3 -> same_kind o1 o3.
Proof. destruct o1, o2, o3; cbn; try done; congruence. Qed.

Lemma same_layout_refl p : same_layout p p.
Proof.
  intros l. destruct (heap p !! l); constructor. apply same_kind_refl.
Qed.

Lemma same_layout_heap p p' : heap p' = heap p -> same_layout p p'.
Proof. intros H l. rewrite H. apply same_layout_refl. Qed.

Lemma same_layout_trans p1 p2 p3 :
  same_layout p1 p2 -> same_layout p2 p3 -> same_layout p1 p3.
Proof.
  intros H12 H23 l. specialize (H12 l). specialize (H23 l).
  destruct H12; inversion H23; subst; constructor.
  by eapply same_kind_trans.
Qed.

(** An assignment into an array leaves its element type and shape. *)
Lemma store_same_kind slices (o : obj scalar) v o' :
  store slices o v = inr o' -> same_kind o o'.
Proof.
  unfold store. destruct (_ <? _); [done|].
  destruct o as [a|a]; destruct (broadcast_to _ _); intros [= <-]; done.
Qed.

Lemma keeps_layout_bind {A B} (m : M scalar A) (f : A -> M scalar B) :
  keeps_layout m -> (forall a, keeps_layout (f a)) -> keeps_layout (m ≫= f).
Proof.
  intros Hm Hf s r s' H.
  apply bind_cases in H as [(e & H & ->)|(a & s1 & H1 & H2)].
  - by eapply Hm.
  - eapply same_layout_trans; [by eapply Hm | by eapply Hf].
Qed.

Lemma keeps_layout_before_init_bind {A} base (m : M scalar A) (f : A -> M scalar unit) :
  keeps_layout m -> (forall a, keeps_layout_before_init base (f a)) ->
  keeps_layout_before_init base (m ≫= f).
Proof.
  intros Hm Hf s r s' H.
  apply bind_cases in H as [(e & H & ->)|(a & s1 & H1 & H2)].
  - left. by eapply Hm.
  - apply Hm in H1. apply Hf in H2 as [H2|(p & H2 & Hinit)].
    + left. by eapply same_layout_trans.
    + right. exists p. split; [by eapply same_layout_trans | done].
Qed.

Lemma keeps_layout_setattr name (v : value scalar) : keeps_layout (setattr name v).
Proof. intros s r s' [= <- <-]. by apply same_layout_heap. Qed.

Lemma keeps_layout_lift {A} (x : exn + A) : keeps_layout (lift (scalar:=scalar) x).
Proof. intros s r s' H. apply lift_same in H as ->. apply same_layout_refl. Qed.

Lemma keeps_layout_getattr name : keeps_layout (getattr (scalar:=scalar) name).
Proof. intros s r s' H. apply getattr_same in H as ->. apply same_layout_refl. Qed.

Lemma keeps_layout_deref (v : value scalar) : keeps_layout (deref v).
Proof. intros s r s' H. apply deref_same in H as ->. apply same_layout_refl. Qed.

Lemma keeps_layout_call_kernel k x : keeps_layout (call_kernel k x).
Proof. intros s r s' [= <- <-]. apply same_layout_refl. Qed.

Lemma keeps_layout_setitem name slices (v : item scalar) :
  keeps_layout (setitem name slices v).
Proof.
  intros s r s' H. unfold setitem in H.
  apply bind_cases in H as [(e & H & ->)|(t & s1 & H1 & H2)].
  { apply getattr_same in H as ->. apply same_layout_refl. }
  apply getattr_same in H1 as ->. unfold write_through in H2.
  destruct t as [| | |l]; try (injection H2 as <- <-; apply same_layout_refl).
  destruct (heap (py s) !! l) as [o|] eqn:Ho; [|injection H2 as <- <-; apply same_layout_refl].
  destruct (store slices o v) as [e|o'] eqn:Hst; injection H2 as <- <-;
    [apply same_layout_refl|].
  intros l'. cbn [py heap].
  destruct (decide (l' = l)) as [->|Hne].
  - rewrite lookup_insert_eq, Ho. constructor. by eapply store_same_kind.
  - rewrite lookup_insert_ne by done. destruct (heap (py s) !! l'); constructor.
    apply same_kind_refl.
Qed.

Lemma keeps_layout_call_init base : keeps_layout_before_init base (call_init base).
Proof.
  intros s r s' H. apply call_init_run in H as (p' & H & ->).
  right. exists (py s). split; [apply same_layout_refl | done].
Qed.

Lemma compute_ensemble_keeps_layout base g args kwargs :
  keeps_layout_before_init base (compute_ensemble base g args kwargs).
Proof.
  unfold compute_ensemble.
  apply keeps_layout_before_init_bind; [apply keeps_layout_setattr | intros _].
  apply keeps_layout_before_init_bind; [apply keeps_layout_lift | intros k].
  apply keeps_layout_before_init_bind; [apply keeps_layout_getattr | intros xats].
  apply keeps_layout_before_init_bind; [apply keeps_layout_deref | intros x].
  apply keeps_layout_before_init_bind; [apply keeps_layout_call_kernel | intros r].
  apply keeps_layout_before_init_bind; [apply keeps_layout_lift | intros [energies forces]].
  apply keeps_layout_before_init_bind; [apply keeps_layout_setitem | intros _].
  apply keeps_layout_before_init_bind; [apply keeps_layout_setitem | intros _].
  apply keeps_layout_before_init_bind; [apply keeps_layout_setitem | intros _].
  apply keeps_layout_call_init.
Qed.

(** X10.  The adapter writes elements and nothing else: whatever the kernel
    answers, no array of the ensemble is created, dropped, retyped or
    reshaped by the statements of [compute_ensemble] or
    [get_energy_forces].  The arrays have their layout of the start when the
    call ends by an exception of its own, and when [init] is entered
    otherwise. *)
Theorem adapter_keeps_layout base g args kwargs s :
  (same_layout (py s) (py (snd (compute_ensemble base g args kwargs s))) \/
   exists p, same_layout (py s) p /\
             init base p = (fst (compute_ensemble base g args kwargs s),
                            py (snd (compute_ensemble base g args kwargs s)))) /\
  (same_layout (py s) (py (snd (get_energy_forces base g args kwargs s))) \/
   exists p, same_layout (py s) p /\
             init base p = (fst (get_energy_forces base g args kwargs s),
                            py (snd (get_energy_forces base g args kwargs s)))).
Proof.
  unfold get_energy_forces. split.
  - destruct (compute_ensemble base g args kwargs s) as [r s'] eqn:Hrun.
    by apply compute_ensemble_keeps_layout in Hrun.
  - destruct (compute_ensemble base g [] [] s) as [r s'] eqn:Hrun.
    by apply compute_ensemble_keeps_layout in Hrun.
Qed.
Lemma setitem_attrs name slices (v : item scalar) s o s' :
  setitem name slices v s = (o, s') -> attrs (py s') = attrs (py s).
Proof.
  unfold setitem. intros H.
  apply bind_cases in H as [(e & H & ->)|(t & s1 & H1 & H2)].
  { by apply getattr_same in H as ->. }
  apply getattr_same in H1 as ->. unfold write_through in H2.
  destruct t as [| | |l]; try (by injection H2 as <- <-).
  destruct (heap (py s) !! l) as [ob|]; [|by injection H2 as <- <-].
  destruct (store slices ob v) as [e|o']; by injection H2 as <- <-.
Qed.

(** X13.  The attribute dictionary is touched once.  However a run ends,
    the attributes of the ensemble are those of the start with [has_stress]
    bound to [False], either at the end of the run (when the adapter's own
    statements raised) or when [init] is entered: the stress flag is cleared
    also by a call that fails, and no attribute is ever added, removed or
    bound to another array. *)
Theorem attributes_after_a_run base g args kwargs s :
  attrs (py (snd (compute_ensemble base g args kwargs s))) =
    <["has_stress" := VBool false]> (attrs (py s)) \/
  exists p,
    attrs p = <["has_stress" := VBool false]> (attrs (py s)) /\
    init base p = (fst (compute_ensemble base g args kwargs s),
                   py (snd (compute_ensemble base g args kwargs s))).
Proof.
  destruct (compute_ensemble base g args kwargs s) as [o s'] eqn:Hrun. cbn [fst snd].
  unfold compute_ensemble in Hrun.
  apply bind_cases in Hrun as [(e & H & _)|([] & s1 & H1 & Hrun)]; [discriminate H|].
  injection H1 as <-.
  apply bind_cases in Hrun as [(e & H & _)|(k & s1 & H1 & Hrun)].
  { apply lift_same in H as ->. by left. }
  apply lift_same in H1 as ->.
  apply bind_cases in Hrun as [(e & H & _)|(xv & s1 & H1 & Hrun)].
  { apply getattr_same in H as ->. by left. }
  apply getattr_same in H1 as ->.
  apply bind_cases in Hrun as [(e & H & _)|(x & s1 & H1 & Hrun)].
  { apply deref_same in H as ->. by left. }
  apply deref_same in H1 as ->.
  apply bind_cases in Hrun as [(e & H & _)|(r & s1 & H1 & Hrun)].
  { injection H as _ <-. by left. }
  injection H1 as _ <-.
  apply bind_cases in Hrun as [(e & H & _)|([en fo] & s1 & H1 & Hrun)].
  { apply lift_same in H as ->. by left. }
  apply lift_same in H1 as ->.
  apply bind_cases in Hrun as [(e & H & _)|(u1 & s1 & H1 & Hrun)].
  { apply setitem_attrs in H. left. by rewrite H. }
  apply setitem_attrs in H1. cbn [py attrs] in H1.
  apply bind_cases in Hrun as [(e & H & _)|(u2 & s2 & H2 & Hrun)].
  { apply setitem_attrs in H. left. by rewrite H, H1. }
  apply setitem_attrs in H2. rewrite H1 in H2.
  apply bind_cases in Hrun as [(e & H & _)|(u3 & s3 & H3 & Hrun)].
  { apply setitem_attrs in H. left. by rewrite H, H2. }
  apply setitem_attrs in H3. rewrite H2 in H3.
  apply call_init_run in Hrun as (p' & Hinit & ->).
  right. exists (py s3). split; [done|]. exact Hinit.
Qed.
End FurtherFacts.

(** * The further facts on the sample ensembles *)

Module FurtherRuns.
Import Sample Cases.

(** X1 on the sample ensemble, with the aligned kernel. *)
Lemma compute_ensemble_ends_as_init_witness :
  exists p x,
    argument_of ensemble "xats" = Some x /\
    compute_ensemble quiet_base (with_kernel aligned_kernel) [] [] start =
      ends_in_init quiet_base p
        ([] ++ [SetAttr "has_stress" (VBool false); CallKernel x;
                SetItem "force_computed"; SetItem "forces"; SetItem "energies"]) /\
    get_energy_forces quiet_base (with_kernel aligned_kernel) [] [] start =
      ends_in_init quiet_base p
        ([] ++ [SetAttr "has_stress" (VBool false); CallKernel x;
                SetItem "force_computed"; SetItem "forces"; SetItem "energies"]) /\
    results p = (Some (VBool false), Some (OBool (NdArray [2] (replicate 2 true))),
                 Some (OFloat (NdArray [2; 1; 3] [11; 12; 13; 21; 22; 23]%Z)),
                 Some (OFloat (NdArray [2] [-10; -20]%Z))).
Proof.
  apply (compute_ensemble_ends_as_init quiet_base (with_kernel aligned_kernel) [] [] 2 1 start
           (RArr (OFloat kernel_energies)) (RArr (OFloat kernel_forces))).
  - vm_compute. reflexivity.
  - vm_compute. reflexivity.
  - vm_compute. reflexivity.
  - vm_compute. reflexivity.
Defined.

(** X2 on the sample ensemble, with the kernel that answers one energy. *)
Lemma single_energy_fills_all_witness :
  exists p t,
    compute_ensemble quiet_base (with_kernel uniform_kernel) [] [] start =
      ends_in_init quiet_base p t /\
    float_array_at p "energies" = Some (NdArray [2] (replicate 2 (-5)%Z)).
Proof.
  apply (single_energy_fills_all quiet_base (with_kernel uniform_kernel) [] [] 2 1 start
           (-5)%Z (RArr (OFloat (NdArray [1; 3] [1; 2; 3]%Z))) [1; 2; 3; 1; 2; 3]%Z).
  - vm_compute. reflexivity.
  - vm_compute. reflexivity.
  - vm_compute. reflexivity.
Defined.

(** X3 on the ensemble whose forces share the array of the positions. *)
Lemma shared_array_is_overwritten_witness :
  exists p t x0,
    float_array_at aliased "xats" = Some x0 /\
    CallKernel (AArr (OFloat x0)) ∈ t /\
    compute_ensemble quiet_base (with_kernel aligned_kernel) [] [] (MState aliased []) =
      ends_in_init quiet_base p t /\
    float_array_at p "xats" = Some (NdArray [2; 1; 3] [11; 12; 13; 21; 22; 23]%Z).
Proof.
  apply (shared_array_is_overwritten quiet_base (with_kernel aligned_kernel) [] [] 2 1
           (MState aliased []) (RArr (OFloat kernel_energies)) (RArr (OFloat kernel_forces))
           [11; 12; 13; 21; 22; 23]%Z [-10; -20]%Z).
  - vm_compute. reflexivity.
  - vm_compute. reflexivity.
  - vm_compute. reflexivity.
  - vm_compute. reflexivity.
  - vm_compute. reflexivity.
Defined.

(** X4 on the sample ensemble, with the aligned kernel. *)
Lemma compute_ensemble_settles_witness :
  exists p t,
    compute_ensemble quiet_base (with_kernel aligned_kernel) [] [] start =
      ends_in_init quiet_base p t /\
    forall t0, exists t1,
      compute_ensemble quiet_base (with_kernel aligned_kernel) [] [] (MState p t0) =
        ends_in_init quiet_base p t1.
Proof.
  apply (compute_ensemble_settles quiet_base (with_kernel aligned_kernel) [] [] 2 1 start
           (RArr (OFloat kernel_energies)) (RArr (OFloat kernel_forces))
           [11; 12; 13; 21; 22; 23]%Z [-10; -20]%Z).
  - vm_compute. reflexivity.
  - vm_compute. discriminate.
  - vm_compute. reflexivity.
  - vm_compute. reflexivity.
  - vm_compute. reflexivity.
Defined.

(** X5 on the ensemble without positions. *)
Lemma missing_positions_witness :
  compute_ensemble quiet_base (with_kernel aligned_kernel) [] [] (MState without_xats []) =
    (Exc (AttributeError "xats"),
     MState (PyState (<["has_stress" := VBool false]> (attrs without_xats)) (heap without_xats))
            ([] ++ [SetAttr "has_stress" (VBool false)])) /\
  get_energy_forces quiet_base (with_kernel aligned_kernel) [] [] (MState without_xats []) =
    (Exc (AttributeError "xats"),
     MState (PyState (<["has_stress" := VBool false]> (attrs without_xats)) (heap without_xats))
            ([] ++ [SetAttr "has_stress" (VBool false)])).
Proof.
  apply (missing_positions quiet_base (with_kernel aligned_kernel) [] [] (MState without_xats [])
           aligned_kernel).
  - reflexivity.
  - vm_compute. reflexivity.
Defined.

(** X6 on the sample ensemble, with the kernel that answers three
    components. *)
Lemma result_that_is_no_pair_witness :
  compute_ensemble quiet_base (with_kernel triple_kernel) [] [] start =
    (Exc ValueError, at_kernel_call start positions) /\
  heap (py (at_kernel_call start positions)) = heap ensemble /\
  (ValueError = ValueError \/ ValueError = TypeError) /\
  (forall vs,
     RTuple [RArr (OFloat kernel_energies); RArr (OFloat kernel_forces); RFloat 0%Z] = RTuple vs ->
     ValueError = ValueError /\ length vs <> 2) /\
  (RTuple [RArr (OFloat kernel_energies); RArr (OFloat kernel_forces); RFloat 0%Z] = RNone ->
   ValueError = TypeError).
Proof.
  apply (result_that_is_no_pair quiet_base (with_kernel triple_kernel) [] [] start
           triple_kernel positions).
  - reflexivity.
  - vm_compute. reflexivity.
  - reflexivity.
  - reflexivity.
Defined.

(** X7 on the ensemble whose flags are [None]. *)
Lemma flags_that_are_no_array_witness :
  compute_ensemble quiet_base (with_kernel aligned_kernel) [] [] (MState unflagged []) =
    (Exc TypeError, at_kernel_call (MState unflagged []) positions) /\
  heap (py (at_kernel_call (MState unflagged []) positions)) = heap unflagged.
Proof.
  apply (flags_that_are_no_array quiet_base (with_kernel aligned_kernel) [] []
           (MState unflagged []) aligned_kernel positions
           (RTuple [RArr (OFloat kernel_energies); RArr (OFloat kernel_forces)])
           (RArr (OFloat kernel_energies)) (RArr (OFloat kernel_forces)) VNone).
  - reflexivity.
  - vm_compute. reflexivity.
  - reflexivity.
  - reflexivity.
  - vm_compute. reflexivity.
  - intros l. discriminate.
Defined.

(** X8 on the ensemble whose forces are a matrix. *)
Lemma forces_of_low_rank_witness :
  compute_ensemble quiet_base (with_kernel aligned_kernel) [] [] (MState flat_forces []) =
    (Exc IndexError,
     MState (PyState (<["has_stress" := VBool false]> (attrs flat_forces))
                     (<[3 := OBool (NdArray [2] (replicate (size [2]) true))]>
                        (heap flat_forces)))
            ([] ++ [SetAttr "has_stress" (VBool false); CallKernel positions;
                    SetItem "force_computed"])).
Proof.
  apply (forces_of_low_rank quiet_base (with_kernel aligned_kernel) [] []
           (MState flat_forces []) aligned_kernel positions
           (RTuple [RArr (OFloat kernel_energies); RArr (OFloat kernel_forces)])
           (RArr (OFloat kernel_energies)) (RArr (OFloat kernel_forces))
           3 2 (NdArray [2] [false; false]) (OFloat (NdArray [2; 3] [0; 0; 0; 0; 0; 0]%Z))).
  - reflexivity.
  - vm_compute. reflexivity.
  - reflexivity.
  - reflexivity.
  - vm_compute. reflexivity.
  - vm_compute. reflexivity.
  - cbn. lia.
  - vm_compute. reflexivity.
  - vm_compute. reflexivity.
  - cbn. lia.
Defined.

End FurtherRuns.
